(** * TodoDOS: a shallow embedding of [src/index.js] and its properties

    The program is a terminal task list editor.  Its process-wide variables
    ([tasks], [selectedIndex], [view], [searchTerm]) become a record that is
    threaded through a small monad together with the lines still to be read
    from the terminal and the lines written to the console.

    Conventions of the embedding:
    - a JavaScript string is a [string] whose characters are the code units
      of the JavaScript string; the model covers strings whose code units are
      below 256 (Latin-1), for which [toLowerCase] and [trim] act per unit;
    - a JavaScript number that holds an integer is a [Z];
    - an array is a [list], read with [!!] and updated in place with [alter];
    - the built-ins the program calls ([String.prototype.trim], [parseInt],
      [Array.prototype.splice], [Date]) follow ECMA-262. *)

From Stdlib Require Import ZArith List String Ascii Bool Lia.
From stdpp Require Import prelude strings pretty.

Local Open Scope Z_scope.

(** ** The JavaScript built-ins used by the program *)

Module JS.

(** *** Strings *)

Definition code (c : ascii) : Z := Z.of_N (N_of_ascii c).

Definition chr (n : Z) : ascii := ascii_of_N (Z.to_N n).

(** WhiteSpace and LineTerminator code units below 256: TAB, LF, VT, FF,
    CR, SP and NBSP. *)
Definition isWhiteSpace (c : ascii) : bool :=
  let n := code c in
  ((9 <=? n) && (n <=? 13)) || (n =? 32) || (n =? 160).

Fixpoint trimStart (s : string) : string :=
  match s with
  | EmptyString => EmptyString
  | String c s' => if isWhiteSpace c then trimStart s' else s
  end.

Definition trimEnd (s : string) : string :=
  String.rev (trimStart (String.rev s)).

Definition trim (s : string) : string := trimEnd (trimStart s).

(** Lower-casing of one code unit below 256: A-Z and the Latin-1 capitals
    U+00C0..U+00DE except the multiplication sign U+00D7. *)
Definition lowerChar (c : ascii) : ascii :=
  let n := code c in
  if ((65 <=? n) && (n <=? 90))
     || ((192 <=? n) && (n <=? 222) && negb (n =? 215))
  then chr (n + 32) else c.

Fixpoint toLowerCase (s : string) : string :=
  match s with
  | EmptyString => EmptyString
  | String c s' => String (lowerChar c) (toLowerCase s')
  end.

Fixpoint startsWith (s t : string) : bool :=
  match t, s with
  | EmptyString, _ => true
  | String _ _, EmptyString => false
  | String b t', String a s' => bool_decide (a = b) && startsWith s' t'
  end.

(** [s.includes(t)]: [t] occurs in [s] at some position. *)
Fixpoint includes (s t : string) : bool :=
  startsWith s t ||
  match s with
  | EmptyString => false
  | String _ s' => includes s' t
  end.

(** [s.split(sep)] for a one-character separator. *)
Fixpoint split (sep : ascii) (s : string) : list string :=
  match s with
  | EmptyString => [EmptyString]
  | String c s' =>
      if bool_decide (c = sep) then EmptyString :: split sep s'
      else match split sep s' with
           | h :: r => String c h :: r
           | [] => [String c EmptyString]
           end
  end.

Fixpoint join (sep : string) (l : list string) : string :=
  match l with
  | [] => EmptyString
  | [x] => x
  | x :: r => x +:+ sep +:+ join sep r
  end.

(** Truthiness of a string: non-empty. *)
Definition truthy (s : string) : bool :=
  match s with EmptyString => false | _ => true end.

(** [a || b] on strings. *)
Definition orElse (a b : string) : string := if truthy a then a else b.

Definition strlen (s : string) : Z := Z.of_nat (String.length s).

(** *** Numbers read from strings *)

Definition digitVal (c : ascii) : option Z :=
  let n := code c in
  if (48 <=? n) && (n <=? 57) then Some (n - 48) else None.

Definition hexVal (c : ascii) : option Z :=
  let n := code c in
  if (48 <=? n) && (n <=? 57) then Some (n - 48)
  else if (97 <=? n) && (n <=? 102) then Some (n - 87)
  else if (65 <=? n) && (n <=? 70) then Some (n - 55)
  else None.

Definition isDigit (c : ascii) : bool :=
  match digitVal c with Some _ => true | None => false end.

(** The value of the longest prefix of [s] made of digits of the radix,
    continuing from [acc]; [None] when no digit has been read. *)
Fixpoint readDigits (radix : Z) (val : ascii -> option Z)
         (acc : option Z) (s : string) : option Z :=
  match s with
  | EmptyString => acc
  | String c s' =>
      match val c with
      | Some d => readDigits radix val (Some (default 0 acc * radix + d)) s'
      | None => acc
      end
  end.

(** [parseInt(s)] with no radix argument; [None] is NaN. *)
Definition parseInt (s : string) : option Z :=
  let s0 := trimStart s in
  let '(sign, s1) :=
    match s0 with
    | String "-" r => (-1, r)
    | String "+" r => (1, r)
    | _ => (1, s0)
    end in
  let '(radix, val, s2) :=
    match s1 with
    | String "0" (String "x" r) => (16, hexVal, r)
    | String "0" (String "X" r) => (16, hexVal, r)
    | _ => (10, digitVal, s1)
    end in
  match readDigits radix val None s2 with
  | Some n => Some (sign * n)
  | None => None
  end.

(** [Number(s)] for a string of decimal digits. *)
Definition toNumber (s : string) : Z :=
  default 0 (readDigits 10 digitVal None s).

Fixpoint allDigits (s : string) : bool :=
  match s with
  | EmptyString => true
  | String c s' => isDigit c && allDigits s'
  end.

(** [\d{lo,hi}] against a whole string. *)
Definition digitRun (lo hi : nat) (s : string) : bool :=
  allDigits s && bool_decide (lo <= String.length s <= hi)%nat.

(** Decimal rendering of [n mod 10^width] on exactly [width] digits. *)
Fixpoint padDigits (width : nat) (n : Z) : string :=
  match width with
  | O => EmptyString
  | S w => padDigits w (n / 10) +:+ String (chr (48 + n mod 10)) EmptyString
  end.

(** *** Arrays *)

(** [a.splice(start, 1)]: the array that remains. *)
Definition splice1 {A} (start : Z) (a : list A) : list A :=
  let len := Z.of_nat (length a) in
  let s := if start <? 0 then Z.max (len + start) 0 else Z.min start len in
  take (Z.to_nat s) a ++ drop (S (Z.to_nat s)) a.

(** [a[i]] for an integer [i]; [None] is [undefined]. *)
Definition at_ {A} (a : list A) (i : Z) : option A :=
  if i <? 0 then None else a !! Z.to_nat i.

(** *** Dates (ECMA-262, Date objects)

    A time value is a number of milliseconds since the epoch, in UTC;
    [None] is the time value NaN of an invalid date. *)

Definition msPerDay : Z := 86400000.

Definition Day (t : Z) : Z := t / msPerDay.

Definition isLeapYear (y : Z) : bool :=
  ((y mod 4 =? 0) && negb (y mod 100 =? 0)) || (y mod 400 =? 0).

Definition DayFromYear (y : Z) : Z :=
  365 * (y - 1970) + (y - 1969) / 4 - (y - 1901) / 100 + (y - 1601) / 400.

(** The year that contains day number [d]: the largest [y] with
    [DayFromYear y <= d], found from an estimate that is off by at most
    one year. *)
Definition YearFromDay (d : Z) : Z :=
  let y := 1970 + (400 * d) / 146097 in
  if d <? DayFromYear y then y - 1
  else if DayFromYear (y + 1) <=? d then y + 1
  else y.

(** Day number within its year of the first day of month [m] (0-based). *)
Definition monthStart (leap : bool) (m : Z) : Z :=
  let l := if leap then 1 else 0 in
  match m with
  | 0 => 0
  | 1 => 31
  | 2 => 59 + l
  | 3 => 90 + l
  | 4 => 120 + l
  | 5 => 151 + l
  | 6 => 181 + l
  | 7 => 212 + l
  | 8 => 243 + l
  | 9 => 273 + l
  | 10 => 304 + l
  | 11 => 334 + l
  | _ => 365 + l
  end.

Definition MonthFromDayInYear (leap : bool) (n : Z) : Z :=
  if n <? monthStart leap 1 then 0
  else if n <? monthStart leap 2 then 1
  else if n <? monthStart leap 3 then 2
  else if n <? monthStart leap 4 then 3
  else if n <? monthStart leap 5 then 4
  else if n <? monthStart leap 6 then 5
  else if n <? monthStart leap 7 then 6
  else if n <? monthStart leap 8 then 7
  else if n <? monthStart leap 9 then 8
  else if n <? monthStart leap 10 then 9
  else if n <? monthStart leap 11 then 10
  else 11.

Definition YearFromTime (t : Z) : Z := YearFromDay (Day t).

Definition DayWithinYear (t : Z) : Z := Day t - DayFromYear (YearFromTime t).

(** 0-based month of a time value. *)
Definition MonthFromTime (t : Z) : Z :=
  MonthFromDayInYear (isLeapYear (YearFromTime t)) (DayWithinYear t).

(** 1-based day of the month of a time value. *)
Definition DateFromTime (t : Z) : Z :=
  DayWithinYear t
  - monthStart (isLeapYear (YearFromTime t)) (MonthFromTime t) + 1.

(** [MakeDay(year, month, date)]: months outside 0..11 carry into the
    year, and the day of the month is added as a plain offset, so a day
    past the end of its month runs on into the following month. *)
Definition MakeDay (year month date : Z) : Z :=
  let ym := year + month / 12 in
  let mn := month mod 12 in
  DayFromYear ym + monthStart (isLeapYear ym) mn + date - 1.

Definition MakeDate (day time : Z) : Z := day * msPerDay + time.

Definition TimeClip (t : Z) : option Z :=
  if 8640000000000000 <? Z.abs t then None else Some t.

(** The host environment: the calendar year of the current local time and
    the offset of local time from UTC, in milliseconds, at a local time. *)
Record Env := { currentYear : Z; LocalTZA : Z -> Z }.

Definition UTC (env : Env) (t : Z) : Z := t - LocalTZA env t.

(** [new Date(year, month, date)] with integer arguments: local midnight
    of that day; years 0..99 mean 1900..1999. *)
Definition newDate3 (env : Env) (year month date : Z) : option Z :=
  let yr := if (0 <=? year) && (year <=? 99) then 1900 + year else year in
  TimeClip (UTC env (MakeDate (MakeDay yr month date) 0)).

(** [new Date(s)] for a string [s] of the shape [dddd-dd-dd], as Node's
    engine parses it: a UTC date whose month must be 1..12 and whose day
    must be 1..31, whatever the month. *)
Definition newDateIso (s : string) : option Z :=
  let y := toNumber (substring 0 4 s) in
  let m := toNumber (substring 5 2 s) in
  let d := toNumber (substring 8 2 s) in
  if (1 <=? m) && (m <=? 12) && (1 <=? d) && (d <=? 31)
  then TimeClip (MakeDate (MakeDay y (m - 1) d) 0)
  else None.

(** [d.toISOString().split('T')[0]]: the UTC calendar date of the time
    value, with a four-digit year inside 0..9999 and a signed six-digit
    year outside. *)
Definition isoDatePart (t : Z) : string :=
  let y := YearFromTime t in
  let ys := if (0 <=? y) && (y <=? 9999) then padDigits 4 y
            else (if y <? 0 then "-" else "+") +:+ padDigits 6 (Z.abs y) in
  ys +:+ "-" +:+ padDigits 2 (MonthFromTime t + 1)
     +:+ "-" +:+ padDigits 2 (DateFromTime t).

End JS.

(** ** The program *)

Module TodoDOS.
Import JS.

(** *** Data *)

(** One element of [tasks].  Status and priority are the strings the
    source stores (['offen'], ['erledigt'], ['normal'], ['hoch'],
    ['niedrig']). *)
Record Task := mkTask {
  id : Z;
  title : string;
  status : string;
  priority : string;
  dueDate : string;
  tags : list string
}.

Definition set_id (v : Z) (t : Task) : Task :=
  mkTask v (title t) (status t) (priority t) (dueDate t) (tags t).
Definition set_title (v : string) (t : Task) : Task :=
  mkTask (id t) v (status t) (priority t) (dueDate t) (tags t).
Definition set_status (v : string) (t : Task) : Task :=
  mkTask (id t) (title t) v (priority t) (dueDate t) (tags t).
Definition set_priority (v : string) (t : Task) : Task :=
  mkTask (id t) (title t) (status t) v (dueDate t) (tags t).
Definition set_dueDate (v : string) (t : Task) : Task :=
  mkTask (id t) (title t) (status t) (priority t) v (tags t).
Definition set_tags (v : list string) (t : Task) : Task :=
  mkTask (id t) (title t) (status t) (priority t) (dueDate t) v.

(** A data row of the remote sheet; an empty cell is the empty string. *)
Record Row := mkRow {
  row_title : string;
  row_status : string;
  row_priority : string;
  row_dueDate : string;
  row_tags : string
}.

(** The variable [doc] and the sheet behind it: no connection, a
    connection whose calls fail, or a sheet with its data rows. *)
Inductive Remote :=
| NoDoc
| Failing
| Sheet (rows : list Row).

(** The questions asked on the terminal. *)
Inductive Prompt :=
| AskCommand
| AskQuickTitle
| AskTitle
| AskPriority
| AskDueDate
| AskTags
| AskNewTitle (current : string)
| AskNewPriority (current : string)
| AskNewDueDate (current : string)
| AskNewTags (current : string)
| AskSearchTerm.

(** The lines written to the console, without colours and frames. *)
Inductive Msg :=
| Asked (p : Prompt)
| Goodbye
| HelpScreen
| QuickAddHeading
| QuickAdded (t : string)
| AbortedNoTitle
| AddHeading
| InvalidPriority (entered : string)
| InvalidDateIgnored (entered : string)
| Added (t : string)
| PriorityLine (p : string)
| DueDateLine (d : string)
| TagsLine (joined : string)
| NothingToDelete
| Deleted (t : string)
| NothingToEdit
| EditHeading (t : string)
| EditHint
| InvalidDateUnchanged (entered : string)
| Updated (t : string)
| NothingToToggle
| Toggled (t : string) (newStatus : string)
| SearchHeading
| CurrentSearch (term : string)
| SearchingFor (term : string)
| SearchCleared
| NoConnectionUsingLocal
| NoConnectionCannotSave
| Loaded (n : Z)
| LoadFailed
| Saving
| Saved (n : Z)
| SaveFailed
| Reloaded
| Jumped (n : Z)
| InvalidTaskNumber
| UnknownCommand (input : string)
| CommandFailed
| ScreenCleared
| Banner
| StatusLine (total open done : Z)
| CommandHints
| SearchBar (term : string)
| NoTasksYet
| NoSearchHits
| TableHeading
| TableRow (nr : Z) (selected : bool) (t : Task) (shownTitle : string)
| SelectedLine (t : string)
| NoTaskSelected
| DetailsBanner
| Details (t : Task)
| PromptInfo (info : string)
| LoadingFromSheet
| LoadedFromSheet (n : Z)
| SheetEmpty
| WorkingOffline
| Ready.

(** The process: the module-level variables of the source, the lines the
    terminal still delivers, and the console output so far. *)
Record World := mkWorld {
  tasks : list Task;
  selectedIndex : Z;
  view : string;
  searchTerm : string;
  doc : Remote;
  stdin : list string;
  console : list Msg
}.

Definition set_tasks (v : list Task) (w : World) : World :=
  mkWorld v (selectedIndex w) (view w) (searchTerm w) (doc w) (stdin w)
          (console w).
Definition set_selectedIndex (v : Z) (w : World) : World :=
  mkWorld (tasks w) v (view w) (searchTerm w) (doc w) (stdin w) (console w).
Definition set_searchTerm (v : string) (w : World) : World :=
  mkWorld (tasks w) (selectedIndex w) (view w) v (doc w) (stdin w)
          (console w).
Definition set_doc (v : Remote) (w : World) : World :=
  mkWorld (tasks w) (selectedIndex w) (view w) (searchTerm w) v (stdin w)
          (console w).
Definition set_stdin (v : list string) (w : World) : World :=
  mkWorld (tasks w) (selectedIndex w) (view w) (searchTerm w) (doc w) v
          (console w).
Definition set_console (v : list Msg) (w : World) : World :=
  mkWorld (tasks w) (selectedIndex w) (view w) (searchTerm w) (doc w)
          (stdin w) v.

(** The state at the start of the program. *)
Definition initial (d : Remote) (input : list string) : World :=
  mkWorld [] 0 "main" "" d input [].

(** *** Effects *)

(** How a computation ends: normally; by an exception on its way to the
    nearest handler; waiting for a line that never comes; by
    [process.exit]; or by a rejected promise that nothing handles, after
    which the awaiting command never resumes. *)
Inductive Outcome (A : Type) :=
| Done (a : A) (w : World)
| Thrown (w : World)
| Waiting (w : World)
| Exited (exitCode : Z) (w : World)
| Unhandled (w : World).
Arguments Done {A} a w.
Arguments Thrown {A} w.
Arguments Waiting {A} w.
Arguments Exited {A} exitCode w.
Arguments Unhandled {A} w.

Definition M (A : Type) : Type := World -> Outcome A.

#[export] Instance M_ret : MRet M := fun A a w => Done a w.

#[export] Instance M_bind : MBind M := fun A B f m w =>
  match m w with
  | Done a w' => f a w'
  | Thrown w' => Thrown w'
  | Waiting w' => Waiting w'
  | Exited c w' => Exited c w'
  | Unhandled w' => Unhandled w'
  end.

Definition get : M World := fun w => Done w w.
Definition modify (f : World -> World) : M unit := fun w => Done tt (f w).
Definition throw {A} : M A := fun w => Thrown w.
Definition exit {A} (c : Z) : M A := fun w => Exited c w.
Definition unhandled {A} : M A := fun w => Unhandled w.

(** [try { body } catch (error) { handler }]. *)
Definition tryCatch {A} (body handler : M A) : M A := fun w =>
  match body w with
  | Thrown w' => handler w'
  | r => r
  end.

(** [console.log] and [console.error]. *)
Definition log (m : Msg) : M unit :=
  modify (fun w => set_console (console w ++ [m]) w).

Definition when (b : bool) (m : M unit) : M unit :=
  if b then m else mret tt.

(** [rl.question(prompt, callback)]: the rest of the computation is the
    callback, run when the next line arrives. *)
Definition question (p : Prompt) : M string := fun w =>
  let w' := set_console (console w ++ [Asked p]) w in
  match stdin w with
  | [] => Waiting w'
  | line :: rest => Done line (set_stdin rest w')
  end.

Definition logs (ms : list Msg) : M unit :=
  modify (fun w => set_console (console w ++ ms) w).

Definition len {A} (a : list A) : Z := Z.of_nat (length a).

(** [a.includes(x)] on an array of strings. *)
Definition oneOf (a : list string) (x : string) : bool :=
  bool_decide (x ∈ a).

(** *** The task list ([addTask], [deleteTask], [completeTask]) *)

Definition addTask (title priority dueDate : string) (tags : list string)
           (ts : list Task) : list Task :=
  ts ++ [mkTask (len ts + 1) title "offen" priority dueDate tags].

(** [tasks.forEach((task, i) => { task.id = i + 1; })]. *)
Definition renumber (ts : list Task) : list Task :=
  imap (fun i task => set_id (Z.of_nat i + 1) task) ts.

Definition deleteTask (index : Z) (ts : list Task) : list Task :=
  renumber (splice1 index ts).

Definition toggled (task : Task) : Task :=
  set_status
    (if bool_decide (status task = "erledigt") then "offen" else "erledigt")
    task.

(** [None]: [tasks[index]] is [undefined] and reading its status throws. *)
Definition completeTask (index : Z) (ts : list Task) : option (list Task) :=
  match at_ ts index with
  | Some _ => Some (alter toggled (Z.to_nat index) ts)
  | None => None
  end.

(** The list the main view shows (lines 292-294). *)
Definition filteredTasks (ts : list Task) (term : string) : list Task :=
  if 0 <? strlen term
  then List.filter
         (fun task => includes (toLowerCase (title task)) (toLowerCase term))
         ts
  else ts.

(** *** The remote sheet ([loadTasks], [saveTasks]) *)

Definition taskOfRow (index : nat) (r : Row) : Task :=
  mkTask (Z.of_nat index + 1)
         (orElse (row_title r) "Keine Beschreibung")
         (orElse (row_status r) "offen")
         (orElse (row_priority r) "normal")
         (orElse (row_dueDate r) "")
         (List.filter (fun tag => 0 <? strlen (trim tag))
                      (split "," (orElse (row_tags r) ""))).

Definition rowOfTask (task : Task) : Row :=
  mkRow (title task) (status task) (priority task) (dueDate task)
        (join "," (tags task)).

Definition loadTasks : M bool :=
  w ← get;
  match doc w with
  | NoDoc => log NoConnectionUsingLocal;; mret false
  | Sheet rows =>
      modify (set_tasks (imap taskOfRow rows));;
      log (Loaded (len rows));;
      mret true
  | Failing => log LoadFailed;; modify (set_tasks []);; mret false
  end.

Definition saveTasks : M bool :=
  w ← get;
  match doc w with
  | NoDoc => log NoConnectionCannotSave;; mret false
  | Sheet _ =>
      log Saving;;
      modify (set_doc (Sheet (map rowOfTask (tasks w))));;
      log (Saved (len (tasks w)));;
      mret true
  | Failing => log Saving;; log SaveFailed;; mret false
  end.

(** *** Views *)

Definition showHelp : M unit := log ScreenCleared;; log HelpScreen.

(** [s.substring(0, n)] followed by an ellipsis when [s] is longer. *)
Definition shorten (n : nat) (s : string) : string :=
  substring 0 n s +:+ (if Z.of_nat n <? strlen s then "..." else "").

Definition countStatus (st : string) (ts : list Task) : Z :=
  len (List.filter (fun t => bool_decide (status t = st)) ts).

(** The title on the "selected" line: [filteredTasks[selectedIndex]?.title
    || 'Keine']. *)
Definition selectedTitle (shown : list Task) (sel : Z) : string :=
  orElse (from_option title "" (at_ shown sel)) "Keine".

Definition renderMainView : M unit :=
  w ← get;
  log ScreenCleared;;
  log Banner;;
  log (StatusLine (len (tasks w)) (countStatus "offen" (tasks w))
                  (countStatus "erledigt" (tasks w)));;
  log CommandHints;;
  when (0 <? strlen (searchTerm w)) (log (SearchBar (searchTerm w)));;
  if len (tasks w) =? 0 then log NoTasksYet
  else
    let shown := filteredTasks (tasks w) (searchTerm w) in
    if len shown =? 0 then log NoSearchHits
    else
      log TableHeading;;
      logs (imap (fun index task =>
                    TableRow (Z.of_nat index + 1)
                             (Z.of_nat index =? selectedIndex w)
                             task (shorten 40 (title task)))
                 shown);;
      when (0 <? len shown)
           (log (SelectedLine (selectedTitle shown (selectedIndex w)))).

Definition renderDetailsView : M unit :=
  w ← get;
  if (len (tasks w) =? 0) || (len (tasks w) <=? selectedIndex w)
  then log NoTaskSelected
  else
    log ScreenCleared;;
    log DetailsBanner;;
    match at_ (tasks w) (selectedIndex w) with
    | Some task => log (Details task)
    | None => throw
    end.

(** The line above the prompt, then the question whose answer goes to
    [handleCommand]. *)
Definition showPrompt (handleCommand : string -> M unit) : M unit :=
  w ← get;
  log (PromptInfo
         match at_ (tasks w) (selectedIndex w) with
         | Some currentTask =>
             "[" +:+ pretty (selectedIndex w + 1) +:+ "/"
                 +:+ pretty (len (tasks w)) +:+ "] "
                 +:+ shorten 20 (title currentTask)
         | None => ""
         end);;
  input ← question AskCommand;
  handleCommand input.

(** *** Commands *)

Definition validPriorities : list string := ["normal"; "hoch"; "niedrig"].

(** [tags.split(',').map(tag => tag.trim()).filter(tag => tag.length > 0)]. *)
Definition splitTags (entered : string) : list string :=
  List.filter (fun tag => 0 <? strlen tag) (map trim (split "," entered)).

(** [/^\d{4}-\d{2}-\d{2}$/]. *)
Definition matchesIso (s : string) : bool :=
  match split "-" s with
  | [y; m; d] => digitRun 4 4 y && digitRun 2 2 m && digitRun 2 2 d
  | _ => false
  end.

(** [/^\d{1,2}\.\d{1,2}\.\d{4}$/]. *)
Definition matchesDMY (s : string) : bool :=
  match split "." s with
  | [d; m; y] => digitRun 1 2 d && digitRun 1 2 m && digitRun 4 4 y
  | _ => false
  end.

(** [/^\d{1,2}\.\d{1,2}$/]. *)
Definition matchesDM (s : string) : bool :=
  match split "." s with
  | [d; m] => digitRun 1 2 d && digitRun 1 2 m
  | _ => false
  end.

Definition handleQuickAdd : M unit :=
  log QuickAddHeading;;
  title ← question AskQuickTitle;
  if truthy (trim title)
  then
    modify (fun w =>
              set_tasks (addTask (trim title) "normal" "" [] (tasks w)) w);;
    log (QuickAdded (trim title))
  else log AbortedNoTitle.

Definition handleDeleteTask : M unit :=
  w ← get;
  if len (tasks w) =? 0 then log NothingToDelete
  else if (0 <=? selectedIndex w) && (selectedIndex w <? len (tasks w))
  then
    let removed := from_option title "" (at_ (tasks w) (selectedIndex w)) in
    let ts := deleteTask (selectedIndex w) (tasks w) in
    modify (set_tasks ts);;
    modify (set_selectedIndex (Z.min (selectedIndex w) (len ts - 1)));;
    log (Deleted removed)
  else mret tt.

Definition handleToggleTask : M unit :=
  w ← get;
  if (len (tasks w) =? 0) || (len (tasks w) <=? selectedIndex w)
  then log NothingToToggle
  else
    match completeTask (selectedIndex w) (tasks w) with
    | Some ts =>
        modify (set_tasks ts);;
        match at_ ts (selectedIndex w) with
        | Some task => log (Toggled (title task) (status task))
        | None => throw
        end
    | None => throw
    end.

Definition handleSearch : M unit :=
  w ← get;
  log SearchHeading;;
  log (CurrentSearch (orElse (searchTerm w) "keine"));;
  term ← question AskSearchTerm;
  modify (set_searchTerm (trim term));;
  if truthy (trim term) then log (SearchingFor (trim term))
  else log SearchCleared.

Section WithEnv.

Variable env : Env.

(** The date block of [handleAddTask] (lines 517-535), repeated in
    [handleEditTask] (lines 618-632): the time value of [parsedDate]
    when it is set and not NaN. *)
Definition parsedDate (dateStr : string) : option Z :=
  if matchesIso dateStr then newDateIso dateStr
  else if matchesDMY dateStr then
    match split "." dateStr with
    | [day; month; year] =>
        newDate3 env (toNumber year) (toNumber month - 1) (toNumber day)
    | _ => None
    end
  else if matchesDM dateStr then
    match split "." dateStr with
    | [day; month] =>
        newDate3 env (currentYear env) (toNumber month - 1) (toNumber day)
    | _ => None
    end
  else None.

Definition handleAddTask : M unit :=
  log AddHeading;;
  title ← question AskTitle;
  if negb (truthy (trim title)) then log AbortedNoTitle
  else
    priority ← question AskPriority;
    let taskPriority := orElse (toLowerCase (trim priority)) "normal" in
    when (negb (oneOf validPriorities taskPriority))
         (log (InvalidPriority priority));;
    dueDate ← question AskDueDate;
    formattedDate ←
      (if truthy (trim dueDate) then
         match parsedDate (trim dueDate) with
         | Some t => mret (isoDatePart t)
         | None => log (InvalidDateIgnored (trim dueDate));; mret ""
         end
       else mret "");
    tags ← question AskTags;
    let taskTags := if truthy (trim tags) then splitTags tags else [] in
    modify (fun w =>
              set_tasks
                (addTask (trim title)
                         (if oneOf validPriorities taskPriority
                          then taskPriority else "normal")
                         formattedDate taskTags (tasks w)) w);;
    log (Added (trim title));;
    when (negb (bool_decide (taskPriority = "normal")))
         (log (PriorityLine taskPriority));;
    when (truthy formattedDate) (log (DueDateLine formattedDate));;
    when (0 <? len taskTags) (log (TagsLine (join ", " taskTags))).

(** [task.field = value] for the task object that was [tasks[index]]
    when the command started. *)
Definition assign (index : Z) (f : Task -> Task) : M unit :=
  modify (fun w => set_tasks (alter f (Z.to_nat index) (tasks w)) w).

Definition handleEditTask : M unit :=
  w ← get;
  if (len (tasks w) =? 0) || (len (tasks w) <=? selectedIndex w)
  then log NothingToEdit
  else
    let index := selectedIndex w in
    match at_ (tasks w) index with
    | None => unhandled
    | Some task =>
        log (EditHeading (title task));;
        log EditHint;;
        newTitle ← question (AskNewTitle (title task));
        let task := if truthy (trim newTitle)
                    then set_title (trim newTitle) task else task in
        assign index (fun _ => task);;
        newPriority ← question (AskNewPriority (priority task));
        let task :=
          if truthy (trim newPriority)
             && oneOf validPriorities (toLowerCase (trim newPriority))
          then set_priority (toLowerCase (trim newPriority)) task
          else task in
        assign index (fun _ => task);;
        newDueDate ← question (AskNewDueDate (orElse (dueDate task) "keine"));
        task ←
          (if truthy (trim newDueDate) then
             if bool_decide (toLowerCase (trim newDueDate) = "keine")
             then mret (set_dueDate "" task)
             else
               match parsedDate (trim newDueDate) with
               | Some t => mret (set_dueDate (isoDatePart t) task)
               | None =>
                   log (InvalidDateUnchanged (trim newDueDate));;
                   mret task
               end
           else mret task);
        assign index (fun _ => task);;
        newTags ← question
          (AskNewTags (if 0 <? len (tags task)
                       then join ", " (tags task) else "keine"));
        let task :=
          if truthy (trim newTags) then
            if bool_decide (toLowerCase (trim newTags) = "keine")
            then set_tags [] task
            else set_tags (splitTags newTags) task
          else task in
        assign index (fun _ => task);;
        log (Updated (title task))
    end.

(** One command, from the line read to the next prompt; [next] is the
    call of [showPrompt] that ends every turn.  [showPrompt] does not
    throw, so it is placed after the [try] block it is called in. *)
Definition handleCommand (next : M unit) (input : string) : M unit :=
  let command := toLowerCase (trim input) in
  tryCatch
    ((if oneOf ["quit"; "q"; "exit"] command then log Goodbye;; exit 0
      else if oneOf ["help"; "h"] command then showHelp
      else if oneOf ["add"; "a"] command then handleAddTask
      else if oneOf ["quick"; "qa"] command then handleQuickAdd
      else if oneOf ["delete"; "d"] command then handleDeleteTask
      else if oneOf ["edit"; "e"] command then handleEditTask
      else if oneOf ["toggle"; "t"; "space"] command then handleToggleTask
      else if oneOf ["save"; "s"] command then saveTasks;; mret tt
      else if oneOf ["reload"; "r"] command then loadTasks;; log Reloaded
      else if oneOf ["search"; "/"] command then handleSearch
      else if oneOf ["details"; "show"] command then renderDetailsView
      else if oneOf ["up"; "k"] command then
        modify (fun w => set_selectedIndex (Z.max 0 (selectedIndex w - 1)) w)
      else if oneOf ["down"; "j"] command then
        modify (fun w => set_selectedIndex
                           (Z.min (len (tasks w) - 1) (selectedIndex w + 1)) w)
      else if oneOf ["home"] command then modify (set_selectedIndex 0)
      else if oneOf ["end"] command then
        modify (fun w => set_selectedIndex (Z.max 0 (len (tasks w) - 1)) w)
      else if oneOf ["clear"] command then
        modify (set_searchTerm "");; log SearchCleared
      else if bool_decide (trim input = "") then mret tt
      else
        match parseInt command with
        | Some n =>
            let num := n - 1 in
            w ← get;
            if (0 <=? num) && (num <? len (tasks w))
            then modify (set_selectedIndex num);; log (Jumped (num + 1))
            else log InvalidTaskNumber
        | None => log (UnknownCommand input)
        end);;
     renderMainView)
    (log CommandFailed);;
  next.

(** The first [n] turns of the session. *)
Fixpoint turns (n : nat) : M unit :=
  match n with
  | O => mret tt
  | S k => showPrompt (handleCommand (turns k))
  end.

(** [main] after [connectToSheet] has returned [connected], followed by
    the first [n] turns. *)
Definition main (connected : bool) (n : nat) : M unit :=
  log ScreenCleared;;
  log Banner;;
  (if connected then
     log LoadingFromSheet;;
     loaded ← loadTasks;
     w ← get;
     if loaded && (0 <? len (tasks w))
     then log (LoadedFromSheet (len (tasks w)))
     else when loaded (log SheetEmpty)
   else log WorkingOffline);;
  log Ready;;
  renderMainView;;
  turns n.

End WithEnv.

End TodoDOS.
(** ** Vocabulary of the properties *)

Import JS TodoDOS.

(** A host in UTC and a host one hour east of it, both in the year 2024. *)
Definition hostUTC : Env :=
  {| currentYear := 2024; LocalTZA := fun _ => 0 |}.
Definition hostCET : Env :=
  {| currentYear := 2024; LocalTZA := fun _ => 3600000 |}.

(** The operations of the task list that change its length. *)
Inductive StoreOp :=
| OpAdd (title priority dueDate : string) (tags : list string)
| OpDelete (index : Z).

Definition applyOp (ts : list Task) (op : StoreOp) : list Task :=
  match op with
  | OpAdd t p d g => addTask t p d g ts
  | OpDelete i => deleteTask i ts
  end.

Definition applyOps (ops : list StoreOp) (ts : list Task) : list Task :=
  fold_left applyOp ops ts.

(** Ids are dense, contiguous and 1-based. *)
Definition denseIds (ts : list Task) : Prop :=
  forall (i : nat) (t : Task), ts !! i = Some t -> id t = Z.of_nat i + 1.

(** A task without its id, the one field that deletion recomputes. *)
Definition content (t : Task) : Task := set_id 0 t.

(** [title] contains [term] as a substring once both are lower-cased. *)
Definition containsCI (title term : string) : Prop :=
  exists pre post, toLowerCase title = pre +:+ toLowerCase term +:+ post.

(** [r] is what is left of [ts] when exactly the tasks that satisfy [P] are
    kept, in their order. *)
Inductive KeptWhere (P : Task -> Prop) : list Task -> list Task -> Prop :=
| kept_nil : KeptWhere P [] []
| kept_yes t ts r : P t -> KeptWhere P ts r -> KeptWhere P (t :: ts) (t :: r)
| kept_no t ts r : ~ P t -> KeptWhere P ts r -> KeptWhere P (t :: ts) r.

(** The world an outcome ends in. *)
Definition finalWorld {A} (o : Outcome A) : World :=
  match o with
  | Done _ w | Thrown w | Waiting w | Exited _ w | Unhandled w => w
  end.

(** The list gains one task at its end, with the next id, open, under the
    given title; the tasks before it are the old list. *)
Definition appendsOne (before after : list Task) (t : string) : Prop :=
  exists task,
    after = before ++ [task] /\
    id task = len before + 1 /\ status task = "offen" /\ title task = t.

(** The lines the main view writes. *)
Definition isViewLine (m : Msg) : Prop :=
  match m with
  | ScreenCleared | Banner | StatusLine _ _ _ | CommandHints | SearchBar _
  | NoTasksYet | NoSearchHits | TableHeading | TableRow _ _ _ _
  | SelectedLine _ => True
  | _ => False
  end.

(** What one command writes to the console. *)
Definition turnOutput (env : Env) (input : string) (w : World) : list Msg :=
  drop (length (console w))
       (console (finalWorld (handleCommand env (mret tt) input w))).

(** The world after the first [n] commands of a session typed into the
    freshly started program, without a remote sheet. *)
Definition after (n : nat) (typed : list string) : World :=
  finalWorld (main hostUTC false n (initial NoDoc typed)).

(** ** Vocabulary of further properties *)

(** [m] keeps [I]: from a world in [I], the world in which [m] ends or
    stops, however it ends, is in [I]. *)
Definition keeps {A} (I : World -> Prop) (m : M A) : Prop :=
  forall w, I w -> I (finalWorld (m w)).

(** [I] does not depend on the console and on the lines still to be read. *)
Definition ignoresTerminal (I : World -> Prop) : Prop :=
  forall w c i, I w -> I (set_console c (set_stdin i w)).

(** What a command needs of [I] to keep it, command by command. *)
Record keptByCommands (env : Env) (I : World -> Prop) : Prop := {
  kept_terminal : ignoresTerminal I;
  kept_add : keeps I (handleAddTask env);
  kept_quick : keeps I handleQuickAdd;
  kept_delete : keeps I handleDeleteTask;
  kept_edit : keeps I (handleEditTask env);
  kept_toggle : keeps I handleToggleTask;
  kept_save : keeps I saveTasks;
  kept_load : keeps I loadTasks;
  kept_search : forall s w, I w -> I (set_searchTerm s w);
  kept_up : forall w, I w ->
    I (set_selectedIndex (Z.max 0 (selectedIndex w - 1)) w);
  kept_down : forall w, I w ->
    I (set_selectedIndex (Z.min (len (tasks w) - 1) (selectedIndex w + 1)) w);
  kept_home : forall w, I w -> I (set_selectedIndex 0 w);
  kept_end : forall w, I w ->
    I (set_selectedIndex (Z.max 0 (len (tasks w) - 1)) w);
  kept_jump : forall w n, 0 <= n < len (tasks w) -> I w ->
    I (set_selectedIndex n w)
}.

Definition idsDense (w : World) : Prop := denseIds (tasks w).

(** A task as the dialogues make it: a title, one of the two statuses, one
    of the three priorities, and no empty tag. *)
Definition wellFormed (t : Task) : Prop :=
  title t <> "" /\ (status t = "offen" \/ status t = "erledigt") /\
  priority t ∈ validPriorities /\ Forall (fun g => g <> "") (tags t).

Definition offlineTasksOk (w : World) : Prop :=
  doc w = NoDoc /\ Forall wellFormed (tasks w).

Definition offlineSelectionOk (w : World) : Prop :=
  doc w = NoDoc /\
  -1 <= selectedIndex w <= Z.max 0 (len (tasks w) - 1).

(** A task that the sheet gives back as it was stored: title, status and
    priority are not empty, and no tag is blank or contains a comma. *)
Definition storable (t : Task) : Prop :=
  title t <> "" /\ status t <> "" /\ priority t <> "" /\
  Forall (fun g => trim g <> "" /\ includes g "," = false) (tags t).

Definition tasksStorable (w : World) : Prop := Forall storable (tasks w).

(** No white space at the start. *)
Definition cleanStart (s : string) : Prop :=
  match s with
  | EmptyString => True
  | String c _ => isWhiteSpace c = false
  end.

(** The command words that can change the task list. *)
Definition taskCommands : list string :=
  ["add"; "a"; "quick"; "qa"; "delete"; "d"; "edit"; "e";
   "toggle"; "t"; "space"; "reload"; "r"].

(** Days of month [m] (1-based) in year [y]. *)
Definition daysInMonth (y m : Z) : Z :=
  monthStart (isLeapYear y) m - monthStart (isLeapYear y) (m - 1).

(** The day number [day] lies in year [y], month [m] (0-based), on day
    [d] of the month. *)
Definition readsAs (day y m d : Z) : Prop :=
  YearFromDay day = y /\
  MonthFromDayInYear (isLeapYear y) (day - DayFromYear y) = m /\
  day - DayFromYear y - monthStart (isLeapYear y) m + 1 = d.

(** The numbers of a dotted entry: year, month and day, the year being the
    current one when the entry has none. *)
Definition dottedParts (env : Env) (entered : string) : option (Z * Z * Z) :=
  match split "." entered with
  | [d; m; y] => Some (toNumber y, toNumber m, toNumber d)
  | [d; m] => Some (currentYear env, toNumber m, toNumber d)
  | _ => None
  end.

(** [YYYY-MM-DD] for numbers. *)
Definition canonical (y m d : Z) : string :=
  padDigits 4 y +:+ "-" +:+ padDigits 2 m +:+ "-" +:+ padDigits 2 d.

(** ** Strings and arrays *)

Lemma startsWith_spec (s t : string) :
  startsWith s t = true <-> exists post, s = t +:+ post.
Proof.
  revert s. induction t as [|b t IH]; intros s; simpl.
  - split; [intros _; by exists s | by destruct s].
  - destruct s as [|a s]; simpl.
    + split; [done | intros [post H]; discriminate].
    + rewrite andb_true_iff, bool_decide_eq_true, IH. split.
      * intros [-> [post ->]]. by exists post.
      * intros [post H]. injection H as -> ->. split; [done | by exists post].
Qed.

Lemma includes_spec (s t : string) :
  includes s t = true <-> exists pre post, s = pre +:+ t +:+ post.
Proof.
  induction s as [|a s IH]; cbn [includes].
  - rewrite orb_false_r, startsWith_spec. split.
    + intros [post H]. by exists EmptyString, post.
    + intros [pre [post H]]. destruct pre; [by exists post | discriminate].
  - rewrite orb_true_iff, IH, startsWith_spec. split.
    + intros [[post H] | [pre [post H]]].
      * by exists EmptyString, post.
      * exists (String a pre), post. simpl. by rewrite H.
    + intros [pre [post H]]. destruct pre as [|c pre]; simpl in H.
      * left. by exists post.
      * right. injection H as -> ->. by exists pre, post.
Qed.

Lemma splice1_in_range {A} (a : list A) (index : Z) :
  0 <= index < len a -> splice1 index a = delete (Z.to_nat index) a.
Proof.
  intros H. unfold splice1, len in *.
  destruct (Z.ltb_spec index 0); [lia |].
  rewrite Z.min_l by lia. by rewrite delete_take_drop.
Qed.

Lemma renumber_dense (ts : list Task) : denseIds (renumber ts).
Proof.
  intros i t. unfold renumber. rewrite list_lookup_imap.
  destruct (ts !! i); simpl; [|done]. by intros [= <-].
Qed.

Lemma renumber_content (ts : list Task) :
  content <$> renumber ts = content <$> ts.
Proof.
  apply list_eq. intros i. unfold renumber.
  rewrite !list_lookup_fmap, list_lookup_imap. by destruct (ts !! i).
Qed.

Lemma addTask_dense t p d g (ts : list Task) :
  denseIds ts -> denseIds (addTask t p d g ts).
Proof.
  intros H i x. unfold addTask, len.
  destruct (decide (i < length ts)%nat) as [Hi | Hi].
  - rewrite lookup_app_l by done. apply H.
  - rewrite lookup_app_r by lia.
    destruct (i - length ts)%nat as [|k] eqn:E; simpl; [|done].
    intros [= <-]. simpl. lia.
Qed.

(** From a list with dense ids, every sequence of additions and deletions
    leads to a list with dense ids. *)
Lemma applyOps_dense (ops : list StoreOp) (ts : list Task) :
  denseIds ts -> denseIds (applyOps ops ts).
Proof.
  revert ts. induction ops as [|op ops IH]; intros ts H; [done |].
  simpl. apply IH. destruct op; [by apply addTask_dense | apply renumber_dense].
Qed.

(** ** The calendar

    Known dates, and the agreement of [MakeDay] with the three readings of
    a time value for every day of 1900 (no leap year), of 2000 (a leap
    year) and of 2023 to 2025. *)

Example calendar_anchors :
  isoDatePart 0 = "1970-01-01" /\
  isoDatePart (-1) = "1969-12-31" /\
  isoDatePart 951782400000 = "2000-02-29" /\
  isoDatePart 1709251200000 = "2024-03-01" /\
  newDateIso "2024-03-01" = Some 1709251200000 /\
  newDate3 hostUTC 2024 2 1 = Some 1709251200000 /\
  newDate3 hostCET 2024 2 1 = Some 1709247600000.
Proof. vm_compute. repeat split. Qed.

Example calendar_round_trip :
  forallb (fun d : Z =>
             let t := d * msPerDay in
             (MakeDay (YearFromTime t) (MonthFromTime t) (DateFromTime t) =? d)
             && (0 <=? MonthFromTime t) && (MonthFromTime t <=? 11)
             && (1 <=? DateFromTime t) && (DateFromTime t <=? 31))
          (seqZ (-25567) 366 ++ seqZ 10957 367 ++ seqZ 19358 1097)
  = true.
Proof. vm_compute. reflexivity. Qed.

(** ** The task list *)

(** C3. Whatever additions and deletions came before, after a deletion the
    id of every task is its position plus one; and a deletion at an index
    inside the list removes the record at that index and leaves the other
    records, ids apart, as they were and in their order. *)
Theorem ids_dense_after_delete (ts0 : list Task) (ops : list StoreOp)
        (index : Z) :
  denseIds (applyOps (ops ++ [OpDelete index]) ts0) /\
  (0 <= index < len (applyOps ops ts0) ->
   content <$> applyOps (ops ++ [OpDelete index]) ts0
   = content <$> delete (Z.to_nat index) (applyOps ops ts0)).
Proof.
  unfold applyOps. rewrite fold_left_app. simpl. split.
  - apply renumber_dense.
  - intros H. unfold deleteTask. rewrite renumber_content.
    by rewrite splice1_in_range.
Qed.

Lemma ids_dense_after_delete_witness :
  let ops := [OpAdd "Buy milk" "normal" "" [];
              OpAdd "Pay rent" "hoch" "2024-03-01" ["bills"]] in
  0 <= 0 < len (applyOps ops []) /\
  applyOps (ops ++ [OpDelete 0]) []
  = [mkTask 1 "Pay rent" "offen" "hoch" "2024-03-01" ["bills"]] /\
  denseIds (applyOps (ops ++ [OpDelete 0]) []) /\
  content <$> applyOps (ops ++ [OpDelete 0]) []
  = content <$> delete (Z.to_nat 0) (applyOps ops []).
Proof.
  intros ops.
  assert (H : 0 <= 0 < len (applyOps ops []))
    by (vm_compute; split; congruence).
  split; [exact H |]. split; [reflexivity |].
  split.
  - exact (proj1 (ids_dense_after_delete [] ops 0)).
  - exact (proj2 (ids_dense_after_delete [] ops 0) H).
Defined.

(** C7. Toggling a task whose status is open sets it to done and changes
    nothing else: the task keeps its id, title, priority, due date and tags,
    and every other position of the list keeps its task.  Toggling the same
    task once more gives back the list as it was. *)
Theorem toggle_open_twice (ts : list Task) (index : Z) (task : Task) :
  at_ ts index = Some task ->
  status task = "offen" ->
  exists ts1 task1,
    completeTask index ts = Some ts1 /\
    at_ ts1 index = Some task1 /\
    status task1 = "erledigt" /\
    id task1 = id task /\ title task1 = title task /\
    priority task1 = priority task /\ dueDate task1 = dueDate task /\
    tags task1 = tags task /\
    length ts1 = length ts /\
    (forall j, j <> index -> at_ ts1 j = at_ ts j) /\
    completeTask index ts1 = Some ts.
Proof.
  intros Hat Hst. unfold completeTask. rewrite Hat.
  unfold at_ in *. destruct (Z.ltb_spec index 0) as [|Hpos]; [done |].
  exists (alter toggled (Z.to_nat index) ts), (toggled task).
  assert (Ht : toggled task = set_status "erledigt" task).
  { unfold toggled. rewrite Hst. reflexivity. }
  split; [done |].
  split. { by rewrite list_lookup_alter_eq, Hat. }
  rewrite Ht. simpl. repeat (split; [done |]).
  split. { by rewrite length_alter. }
  split.
  - intros j Hj. destruct (Z.ltb_spec j 0); [done |].
    apply list_lookup_alter_ne. lia.
  - rewrite list_lookup_alter_eq, Hat. simpl. f_equal.
    apply list_eq. intros j.
    destruct (decide (Z.to_nat index = j)) as [<- | Hne].
    + rewrite !list_lookup_alter_eq, Hat. simpl. f_equal.
      rewrite Ht. destruct task; simpl in *. by subst.
    + by rewrite !list_lookup_alter_ne.
Qed.

Lemma toggle_open_twice_witness :
  let a := mkTask 1 "Alpha" "offen" "hoch" "2024-03-01" ["x"] in
  let b := mkTask 2 "Beta" "erledigt" "normal" "" [] in
  exists ts1 task1,
    completeTask 0 [a; b] = Some ts1 /\
    at_ ts1 0 = Some task1 /\
    status task1 = "erledigt" /\
    id task1 = id a /\ title task1 = title a /\
    priority task1 = priority a /\ dueDate task1 = dueDate a /\
    tags task1 = tags a /\
    length ts1 = length [a; b] /\
    (forall j, j <> 0 -> at_ ts1 j = at_ [a; b] j) /\
    completeTask 0 ts1 = Some [a; b].
Proof.
  intros a b. apply (toggle_open_twice [a; b] 0 a); reflexivity.
Defined.

(** ** The search filter *)

Lemma strlen_pos (s : string) : s <> EmptyString -> (0 <? strlen s) = true.
Proof.
  intros H. destruct s; [done |]. apply Z.ltb_lt. unfold strlen. simpl. lia.
Qed.

Lemma filter_kept (f : Task -> bool) (ts : list Task) :
  KeptWhere (fun t => f t = true) ts (List.filter f ts).
Proof.
  induction ts as [|t ts IH]; simpl; [constructor |].
  destruct (f t) eqn:E.
  - by apply kept_yes.
  - apply kept_no; [congruence | done].
Qed.

Lemma KeptWhere_iff (P Q : Task -> Prop) (ts r : list Task) :
  (forall t, P t <-> Q t) -> KeptWhere P ts r -> KeptWhere Q ts r.
Proof.
  intros HPQ. induction 1.
  - constructor.
  - apply kept_yes; [by apply HPQ | done].
  - apply kept_no; [by rewrite <- HPQ | done].
Qed.

(** C5. With the empty search term the filtered list is the task list
    itself: the same tasks, in the same order, as many as before. *)
Theorem filter_empty_term_identity (ts : list Task) :
  filteredTasks ts "" = ts /\
  length (filteredTasks ts "") = length ts.
Proof. split; reflexivity. Qed.

(** C6. With a non-empty search term the filtered list is what is left of
    the task list when exactly the tasks whose title contains the term,
    case-insensitively, are kept in their order: every task of the result
    has such a title, and a task of the list that is not in the result has
    not.  The test reads no field but the title. *)
Theorem filter_matches_title (ts : list Task) (term : string) :
  term <> "" ->
  KeptWhere (fun t => containsCI (title t) term) ts (filteredTasks ts term) /\
  (forall t, t ∈ filteredTasks ts term ->
             t ∈ ts /\ containsCI (title t) term) /\
  (forall t, t ∈ ts -> t ∉ filteredTasks ts term ->
             ~ containsCI (title t) term) /\
  filteredTasks ts term `sublist_of` ts.
Proof.
  intros Hterm. unfold filteredTasks. rewrite (strlen_pos _ Hterm).
  set (f := fun task : Task =>
              includes (toLowerCase (title task)) (toLowerCase term)).
  assert (Hf : forall t, f t = true <-> containsCI (title t) term).
  { intros t. unfold f, containsCI. apply includes_spec. }
  split; [| split; [| split]].
  - eapply KeptWhere_iff; [exact Hf | apply filter_kept].
  - intros t Ht. apply list_elem_of_In, filter_In in Ht as [Hin Hm].
    split; [by apply list_elem_of_In | by apply Hf].
  - intros t Hin Hout Hc. apply Hout.
    apply list_elem_of_In, filter_In. split; [by apply list_elem_of_In |].
    by apply Hf.
  - induction ts as [|t ts IH]; simpl; [constructor |].
    destruct (f t); by constructor.
Qed.

Lemma filter_matches_title_witness :
  let alpha := mkTask 1 "Alpha" "offen" "normal" "" [] in
  let beta := mkTask 2 "Beta" "offen" "normal" "" [] in
  filteredTasks [alpha; beta] "alp" = [alpha] /\
  KeptWhere (fun t => containsCI (title t) "alp") [alpha; beta]
            (filteredTasks [alpha; beta] "alp").
Proof.
  intros alpha beta. split; [reflexivity |].
  apply (filter_matches_title [alpha; beta] "alp"). discriminate.
Defined.

(** ** Reasoning about the commands *)

#[local] Arguments trim : simpl never.
#[local] Arguments toLowerCase : simpl never.
#[local] Arguments splitTags : simpl never.
#[local] Arguments parsedDate : simpl never.
#[local] Arguments isoDatePart : simpl never.
#[local] Arguments filteredTasks : simpl never.
#[local] Arguments addTask : simpl never.
#[local] Arguments deleteTask : simpl never.
#[local] Arguments join : simpl never.
#[local] Arguments oneOf : simpl never.
#[local] Arguments len : simpl never.
#[local] Arguments countStatus : simpl never.
#[local] Arguments selectedTitle : simpl never.
#[local] Arguments shorten : simpl never.

(** Runs the monadic part of a computation on a world given by its fields. *)
Ltac run :=
  cbv beta iota zeta delta
      [mbind M_bind mret M_ret log logs modify question get when throw exit
       unhandled tryCatch assign
       set_console set_tasks set_stdin set_selectedIndex set_searchTerm
       set_doc tasks selectedIndex view searchTerm doc stdin console].

Lemma truthy_false (s : string) : truthy s = false <-> s = "".
Proof. destruct s; simpl; split; congruence. Qed.

Lemma truthy_true (s : string) : truthy s = true <-> s <> "".
Proof. destruct s; simpl; split; congruence. Qed.


Lemma addTask_appendsOne t p d g (ts : list Task) :
  appendsOne ts (addTask t p d g ts) t.
Proof. eexists. unfold addTask. repeat split. Qed.

(** ** Adding tasks *)

(** C8. When the title entered is empty after trimming, both ways of
    adding a task stop with the warning that no title was entered, ask
    nothing further and leave the task list as it was.  When it is not
    empty, the quick add, and the full add once its three further answers
    have arrived, append exactly one record with id [length + 1], open,
    under the trimmed title, and leave the records before it as they
    were. *)
Theorem add_needs_title (env : Env) (w : World) (entered : string)
        (rest : list string) :
  stdin w = entered :: rest ->
  (trim entered = "" ->
   (exists w', handleQuickAdd w = Done tt w' /\
               tasks w' = tasks w /\ stdin w' = rest /\
               console w' = console w ++
                 [QuickAddHeading; Asked AskQuickTitle; AbortedNoTitle]) /\
   (exists w', handleAddTask env w = Done tt w' /\
               tasks w' = tasks w /\ stdin w' = rest /\
               console w' = console w ++
                 [AddHeading; Asked AskTitle; AbortedNoTitle])) /\
  (trim entered <> "" ->
   (exists w', handleQuickAdd w = Done tt w' /\
               appendsOne (tasks w) (tasks w') (trim entered)) /\
   (forall p d g rest', rest = p :: d :: g :: rest' ->
      exists w', handleAddTask env w = Done tt w' /\
                 appendsOne (tasks w) (tasks w') (trim entered))).
Proof.
  intros Hin. destruct w as [ts sel v term dc inp con]. simpl in Hin. subst inp.
  split.
  - intros He. apply truthy_false in He. split.
    + eexists. unfold handleQuickAdd. run. rewrite He.
      split; [reflexivity |]. by rewrite <- !app_assoc.
    + eexists. unfold handleAddTask. run. rewrite He. simpl.
      split; [reflexivity |]. by rewrite <- !app_assoc.
  - intros He. apply truthy_true in He. split.
    + eexists. unfold handleQuickAdd. run. rewrite He.
      split; [reflexivity |]. apply addTask_appendsOne.
    + intros p d g rest' ->. unfold handleAddTask. run. rewrite He. simpl.
      destruct (oneOf validPriorities _); simpl;
        (destruct (truthy (trim d));
         [destruct (parsedDate env (trim d)) |]);
        repeat match goal with
               | |- context [if ?b then _ else _] => destruct b
               end;
        (eexists; split; [reflexivity |]; apply addTask_appendsOne).
Qed.

Lemma add_needs_title_witness :
  let task := mkTask 1 "Buy milk" "offen" "normal" "" [] in
  let blank := initial NoDoc ["   "] in
  let named :=
    set_tasks [task]
              (initial NoDoc [" Pay rent "; "hoch"; "2024-03-01"; "bills"]) in
  (stdin blank = ["   "] /\ trim "   " = "" /\
   exists w', handleAddTask hostUTC blank = Done tt w' /\
              tasks w' = tasks blank /\ stdin w' = [] /\
              console w' = console blank ++
                [AddHeading; Asked AskTitle; AbortedNoTitle]) /\
  (stdin named = [" Pay rent "; "hoch"; "2024-03-01"; "bills"] /\
   trim " Pay rent " <> "" /\
   exists w', handleAddTask hostUTC named = Done tt w' /\
              appendsOne (tasks named) (tasks w') (trim " Pay rent ")).
Proof.
  intros task blank named. split.
  - split; [reflexivity |]. split; [reflexivity |].
    exact (proj2 (proj1 (add_needs_title hostUTC blank "   " [] eq_refl)
                        eq_refl)).
  - split; [reflexivity |]. split; [discriminate |].
    apply (proj2 (proj2 (add_needs_title hostUTC named " Pay rent "
                           ["hoch"; "2024-03-01"; "bills"] eq_refl)
                        ltac:(discriminate))
                 "hoch" "2024-03-01" "bills" []).
    reflexivity.
Defined.

(** ** Editing a task *)

Lemma at_Some_range {A} (a : list A) (i : Z) (x : A) :
  at_ a i = Some x -> 0 <= i < len a /\ a !! Z.to_nat i = Some x.
Proof.
  unfold at_, len. destruct (Z.ltb_spec i 0) as [|Hpos]; [done |].
  intros Hx. split; [| done]. apply lookup_lt_Some in Hx. lia.
Qed.

Lemma alter_const_insert {A} (x : A) (i : nat) (l : list A) :
  alter (fun _ => x) i l = <[i:=x]> l.
Proof.
  apply list_eq. intros j. destruct (decide (i = j)) as [<- | Hne].
  - rewrite list_lookup_alter_eq.
    destruct (decide (i < length l)%nat) as [Hi | Hi].
    + rewrite list_lookup_insert_eq by done.
      apply lookup_lt_is_Some in Hi as [y ->]. done.
    + rewrite list_insert_ge by lia. by rewrite lookup_ge_None_2 by lia.
  - by rewrite list_lookup_alter_ne, list_lookup_insert_ne.
Qed.

Lemma edit_guard (ts : list Task) (sel : Z) (task : Task) :
  at_ ts sel = Some task -> (len ts =? 0) || (len ts <=? sel) = false.
Proof.
  intros H0. apply at_Some_range in H0 as [Hr _].
  apply orb_false_iff. split; [apply Z.eqb_neq | apply Z.leb_gt]; lia.
Qed.

(** C9. Editing the selected task with four answers: the edit completes
    and changes no position of the list but the selected one.  An answer
    that is empty after trimming leaves its field as it was; the answer
    [keine], in any letter case, sets the due date to the empty string and,
    for the tags, sets the tags to the empty list.  Id and status are not
    touched. *)
Theorem edit_blank_keeps_keine_clears (env : Env) (w : World) (task : Task)
        (newTitle newPriority newDueDate newTags : string)
        (rest : list string) :
  at_ (tasks w) (selectedIndex w) = Some task ->
  stdin w = newTitle :: newPriority :: newDueDate :: newTags :: rest ->
  exists w' task',
    handleEditTask env w = Done tt w' /\
    tasks w' = <[Z.to_nat (selectedIndex w) := task']> (tasks w) /\
    stdin w' = rest /\
    id task' = id task /\ status task' = status task /\
    (trim newTitle = "" -> title task' = title task) /\
    (trim newPriority = "" -> priority task' = priority task) /\
    (trim newDueDate = "" -> dueDate task' = dueDate task) /\
    (trim newTags = "" -> tags task' = tags task) /\
    (toLowerCase (trim newDueDate) = "keine" -> dueDate task' = "") /\
    (toLowerCase (trim newTags) = "keine" -> tags task' = []).
Proof.
  intros Hat Hin. destruct w as [ts sel v term dc inp con].
  simpl in Hat, Hin. subst inp.
  unfold handleEditTask. run. rewrite (edit_guard _ _ _ Hat), Hat.
  rewrite !alter_const_insert, !list_insert_insert_eq.
  assert (Hk : forall s, toLowerCase s = "keine" -> truthy s = true).
  { intros [|c s]; [discriminate | done]. }
  set (t1 := if truthy (trim newTitle)
             then set_title (trim newTitle) task else task).
  assert (H1 : id t1 = id task /\ status t1 = status task /\
               priority t1 = priority task /\ dueDate t1 = dueDate task /\
               tags t1 = tags task /\
               (trim newTitle = "" -> title t1 = title task)).
  { subst t1. destruct (truthy (trim newTitle)) eqn:E; simpl;
      repeat split; trivial.
    intros E'. rewrite E' in E. discriminate. }
  set (t2 := if truthy (trim newPriority)
                && oneOf validPriorities (toLowerCase (trim newPriority))
             then set_priority (toLowerCase (trim newPriority)) t1 else t1).
  assert (H2 : id t2 = id task /\ status t2 = status task /\
               title t2 = title t1 /\ dueDate t2 = dueDate task /\
               tags t2 = tags task /\
               (trim newPriority = "" -> priority t2 = priority task)).
  { subst t2. destruct (truthy (trim newPriority)) eqn:E; simpl;
      [destruct (oneOf _ _); simpl |]; repeat split; try tauto.
    all: intros E'; rewrite E' in E; discriminate. }
  clearbody t2. clearbody t1.
  destruct H1 as (_ & _ & _ & _ & _ & H1).
  destruct H2 as (Hid & Hst & Hti & Hdu & Hta & Hpr).
  assert (Htags : forall t3 : Task,
    let t4 := if truthy (trim newTags)
              then if bool_decide (toLowerCase (trim newTags) = "keine")
                   then set_tags [] t3 else set_tags (splitTags newTags) t3
              else t3 in
    id t4 = id t3 /\ status t4 = status t3 /\ title t4 = title t3 /\
    priority t4 = priority t3 /\ dueDate t4 = dueDate t3 /\
    (trim newTags = "" -> tags t4 = tags t3) /\
    (toLowerCase (trim newTags) = "keine" -> tags t4 = [])).
  { intros t3 t4. subst t4. repeat split.
    1-5: by repeat case_match.
    - intros E. by rewrite E.
    - intros E. by rewrite (Hk _ E), bool_decide_true. }
  destruct (truthy (trim newDueDate)) eqn:Ed;
    [destruct (bool_decide (toLowerCase (trim newDueDate) = "keine")) eqn:Ek;
     [| destruct (parsedDate env (trim newDueDate)) eqn:Ep] |];
    run; rewrite ?alter_const_insert, ?list_insert_insert_eq;
    match goal with
    | |- context [<[_ := ?t]> ts] =>
        match t with
        | context [if truthy (trim newTags) then _ else ?t3] =>
            destruct (Htags t3) as (Gid & Gst & Gti & Gpr & Gdu & Gta & Gke)
        end
    end;
    (eexists; eexists; split; [reflexivity |]; split; [reflexivity |];
     split; [reflexivity |]); clear Htags;
    rewrite ?Gid, ?Gst, ?Gti, ?Gpr, ?Gdu; simpl;
    try apply bool_decide_eq_true in Ek; try apply bool_decide_eq_false in Ek;
    (split; [done |]); (split; [done |]);
    (split; [intros E; rewrite Hti; auto |]);
    (split; [exact Hpr |]);
    (split; [intros E; first [by rewrite E in Ed | done] |]);
    (split; [intros E; rewrite (Gta E); exact Hta |]);
    (split; [intros E; first [done | by rewrite (Hk _ E) in Ed] | exact Gke]).
Qed.

Lemma edit_blank_keeps_keine_clears_witness :
  let task := mkTask 1 "Pay rent" "offen" "hoch" "2024-03-01" ["bills"] in
  let w := set_tasks [task] (initial NoDoc [""; " "; "Keine"; "KEINE"]) in
  at_ (tasks w) (selectedIndex w) = Some task /\
  stdin w = [""; " "; "Keine"; "KEINE"] /\
  exists w' task',
    handleEditTask hostUTC w = Done tt w' /\
    tasks w' = <[Z.to_nat (selectedIndex w) := task']> (tasks w) /\
    stdin w' = [] /\
    id task' = id task /\ status task' = status task /\
    (trim "" = "" -> title task' = title task) /\
    (trim " " = "" -> priority task' = priority task) /\
    (trim "Keine" = "" -> dueDate task' = dueDate task) /\
    (trim "KEINE" = "" -> tags task' = tags task) /\
    (toLowerCase (trim "Keine") = "keine" -> dueDate task' = "") /\
    (toLowerCase (trim "KEINE") = "keine" -> tags task' = []).
Proof.
  intros task w. split; [reflexivity |]. split; [reflexivity |].
  apply (edit_blank_keeps_keine_clears hostUTC w task
           "" " " "Keine" "KEINE" []);
    reflexivity.
Defined.

(** The scenario of the specification, run: a task with a due date and a
    tag, edited with no new title, no new priority and [keine] twice. *)
Example edit_clears_both :
  let task := mkTask 1 "Pay rent" "offen" "hoch" "2024-03-01" ["bills"] in
  let w := set_tasks [task] (initial NoDoc [""; " "; "Keine"; "KEINE"]) in
  tasks (finalWorld (handleEditTask hostUTC w))
  = [mkTask 1 "Pay rent" "offen" "hoch" "" []].
Proof. vm_compute. reflexivity. Qed.

(** The clearing answer is the word [keine] only: the English word is read
    as a date, which it is not, and as a tag. *)
Example edit_english_word_does_not_clear :
  let task := mkTask 1 "Pay rent" "offen" "hoch" "2024-03-01" ["bills"] in
  let w := set_tasks [task] (initial NoDoc [""; ""; "none"; "none"]) in
  tasks (finalWorld (handleEditTask hostUTC w))
  = [mkTask 1 "Pay rent" "offen" "hoch" "2024-03-01" ["none"]].
Proof. vm_compute. reflexivity. Qed.

(** ** The command interpreter *)


(** Rendering the main view always completes; it writes view lines and
    changes nothing else. *)
Lemma renderMainView_done (w : World) :
  exists out,
    renderMainView w = Done tt (set_console (console w ++ out) w) /\
    Forall isViewLine out.
Proof.
  destruct w as [ts sel v term dc inp con]. unfold renderMainView. run.
  destruct (0 <? strlen term); destruct (len ts =? 0);
    try destruct (len (filteredTasks ts term) =? 0);
    try destruct (0 <? len (filteredTasks ts term));
    rewrite <- ?app_assoc; simpl;
    (eexists; split; [reflexivity |]);
    repeat first [ apply Forall_cons; split; [exact I |]
                 | apply Forall_app; split
                 | apply Forall_nil_2 ];
    apply Forall_forall; intros m [i [t [-> _]]]%elem_of_lookup_imap; exact I.
Qed.

(** A line that is no view line is none of three given lines followed by
    view lines. *)
Ltac notView H Hout :=
  repeat (apply elem_of_cons in H as [H | H]; [discriminate |]);
  by apply (proj1 (Forall_forall _ _) Hout) in H.

(** C10. The inputs [quick] and [qa], in any letter case and with spaces
    around them, start the quick add.  With a title that is not empty after
    trimming, the turn appends one open task with that title, priority
    [normal], no due date and no tags; with an empty title it only warns
    and the task list stays as it was.  Either way the turn goes on to the
    next prompt, and neither the unknown-command line nor the failure line
    is written. *)
Theorem quick_is_a_command (env : Env) (next : M unit) (input : string)
        (w : World) (entered : string) (rest : list string) :
  toLowerCase (trim input) = "quick" \/ toLowerCase (trim input) = "qa" ->
  stdin w = entered :: rest ->
  exists w' out,
    handleCommand env next input w = next w' /\
    console w' = console w ++ out /\
    (forall s, UnknownCommand s ∉ out) /\ (CommandFailed ∉ out) /\
    stdin w' = rest /\
    (trim entered <> "" ->
     tasks w' = tasks w ++ [mkTask (len (tasks w) + 1) (trim entered)
                                   "offen" "normal" "" []] /\
     QuickAdded (trim entered) ∈ out) /\
    (trim entered = "" -> tasks w' = tasks w /\ AbortedNoTitle ∈ out).
Proof.
  intros Hc Hin. destruct w as [ts sel v term dc inp con].
  simpl in Hin. subst inp.
  assert (Hsw : handleCommand env next input
            (mkWorld ts sel v term dc (entered :: rest) con)
          = (tryCatch (handleQuickAdd ≫= λ _, renderMainView)
                      (log CommandFailed) ≫= λ _, next)
              (mkWorld ts sel v term dc (entered :: rest) con)).
  { unfold handleCommand. by destruct Hc as [-> | ->]. }
  rewrite Hsw. clear Hsw Hc. unfold handleQuickAdd.
  destruct (truthy (trim entered)) eqn:Et; run; rewrite Et.
  - match goal with
    | |- context [renderMainView ?w1] =>
        destruct (renderMainView_done w1) as (out & -> & Hout)
    end.
    run. eexists. exists ([QuickAddHeading; Asked AskQuickTitle;
                            QuickAdded (trim entered)] ++ out).
    split; [reflexivity |]. simpl. rewrite <- !app_assoc.
    split; [reflexivity |].
    split. { intros s H. notView H Hout. }
    split. { intros H. notView H Hout. }
    split; [reflexivity |]. split.
    + intros _. split; [reflexivity | repeat constructor].
    + intros E. rewrite E in Et. discriminate.
  - match goal with
    | |- context [renderMainView ?w1] =>
        destruct (renderMainView_done w1) as (out & -> & Hout)
    end.
    run. eexists. exists ([QuickAddHeading; Asked AskQuickTitle;
                            AbortedNoTitle] ++ out).
    split; [reflexivity |]. simpl. rewrite <- !app_assoc.
    split; [reflexivity |].
    split. { intros s H. notView H Hout. }
    split. { intros H. notView H Hout. }
    split; [reflexivity |]. split.
    + intros E. by apply truthy_false in Et.
    + intros _. split; [reflexivity | repeat constructor].
Qed.

Lemma quick_is_a_command_witness :
  let w := initial NoDoc [" Buy milk "] in
  (toLowerCase (trim " QA ") = "quick" \/ toLowerCase (trim " QA ") = "qa") /\
  stdin w = [" Buy milk "] /\
  exists w' out,
    handleCommand hostUTC (mret tt) " QA " w = Done tt w' /\
    console w' = console w ++ out /\
    (forall s, UnknownCommand s ∉ out) /\ (CommandFailed ∉ out) /\
    stdin w' = [] /\
    (trim " Buy milk " <> "" ->
     tasks w' = tasks w ++ [mkTask (len (tasks w) + 1) (trim " Buy milk ")
                                   "offen" "normal" "" []] /\
     QuickAdded (trim " Buy milk ") ∈ out) /\
    (trim " Buy milk " = "" -> tasks w' = tasks w /\ AbortedNoTitle ∈ out).
Proof.
  intros w. split; [right; reflexivity |]. split; [reflexivity |].
  apply (quick_is_a_command hostUTC (mret tt) " QA " w " Buy milk " []);
    [right |]; reflexivity.
Defined.

(** ** What the selection is checked against *)

Lemma deleteTask_length (ts : list Task) (index : Z) :
  0 <= index < len ts -> len (deleteTask index ts) = len ts - 1.
Proof.
  intros H. unfold deleteTask, renumber, len in *.
  rewrite length_imap, splice1_in_range by done.
  rewrite length_delete; [lia |]. apply lookup_lt_is_Some. lia.
Qed.

(** X6. Deleting addresses the full task list: the task at [selectedIndex] of
    [tasks] goes, and the selection is cut down to the last index of
    [tasks], which is -1 when no task is left. *)
Lemma delete_addresses_all_tasks (w : World) (task : Task) :
  at_ (tasks w) (selectedIndex w) = Some task ->
  exists w',
    handleDeleteTask w = Done tt w' /\
    tasks w' = deleteTask (selectedIndex w) (tasks w) /\
    console w' = console w ++ [Deleted (title task)] /\
    searchTerm w' = searchTerm w /\
    selectedIndex w' = Z.min (selectedIndex w) (len (tasks w') - 1) /\
    selectedIndex w' <= len (tasks w') - 1 /\
    (0 <= selectedIndex w' <-> tasks w' <> []).
Proof.
  intros Hat. destruct (at_Some_range _ _ _ Hat) as [Hr _].
  destruct w as [ts sel v term dc inp con]. simpl in *.
  pose proof (deleteTask_length ts sel Hr) as Hlen.
  unfold handleDeleteTask. run.
  replace (len ts =? 0) with false by (symmetry; apply Z.eqb_neq; lia).
  replace (0 <=? sel) with true by (symmetry; apply Z.leb_le; lia).
  replace (sel <? len ts) with true by (symmetry; apply Z.ltb_lt; lia).
  simpl. rewrite Hat. eexists. split; [reflexivity |]. simpl.
  repeat split; try lia.
  - intros H0 E. rewrite E in H0. unfold len in H0 at 1. simpl in H0. lia.
  - intros Hne. destruct (deleteTask sel ts) eqn:E; [done |].
    unfold len in *. simpl in *. lia.
Qed.

(** X5. A number typed as a command is checked against the length of the full
    task list, whatever the search term. *)
Lemma jump_is_checked_against_all_tasks (env : Env) (next : M unit)
      (input : string) (w : World) (n : Z) :
  parseInt (toLowerCase (trim input)) = Some n ->
  exists w',
    handleCommand env next input w = next w' /\
    tasks w' = tasks w /\ searchTerm w' = searchTerm w /\
    selectedIndex w' = (if (1 <=? n) && (n <=? len (tasks w))
                        then n - 1 else selectedIndex w).
Proof.
  intros Hn. unfold handleCommand.
  repeat match goal with
         | |- context [oneOf ?l ?c] =>
             let E := fresh "E" in
             destruct (oneOf l c) eqn:E;
             [ exfalso; unfold oneOf in E; apply bool_decide_eq_true in E;
               repeat (apply elem_of_cons in E as [E | E];
                       [rewrite E in Hn; vm_compute in Hn; discriminate |]);
               by apply elem_of_nil in E
             | clear E ]
         end.
  case_bool_decide as Ee.
  { exfalso. rewrite Ee in Hn. vm_compute in Hn. discriminate. }
  rewrite Hn. destruct w as [ts sel v term dc inp con]. run.
  replace (0 <=? n - 1) with (1 <=? n)
    by (destruct (Z.leb_spec 1 n), (Z.leb_spec 0 (n - 1)); lia).
  replace (n - 1 <? len ts) with (n <=? len ts)
    by (destruct (Z.leb_spec n (len ts)), (Z.ltb_spec (n - 1) (len ts)); lia).
  destruct ((1 <=? n) && (n <=? len ts)); run;
    match goal with
    | |- context [renderMainView ?w1] =>
        destruct (renderMainView_done w1) as (out & -> & _)
    end; run; eexists; (split; [reflexivity |]); done.
Qed.

(** ** Sessions that show where the selection points *)

(** C1. Two sessions in which a search term is active.  In the first, with
    the tasks Alpha and Beta and the term [alp], the view shows one task;
    the input [2] is accepted all the same, the selection moves to index 1,
    where the view has nothing, and the deletion that follows removes Beta,
    which the view does not show.  In the second, with Beta entered before
    Alpha, the view marks Alpha as selected at index 0, while deleting,
    toggling, editing and showing details all address Beta, the task at
    index 0 of the full list. *)
Theorem selection_addresses_full_list :
  let w := after 3 ["qa"; "Alpha"; "qa"; "Beta"; "/"; "alp"] in
  let w2 := finalWorld (handleCommand hostUTC (mret tt) "2" w) in
  let v := after 3 ["qa"; "Beta"; "qa"; "Alpha"; "/"; "alp"] in
  (title <$> tasks w = ["Alpha"; "Beta"] /\
   title <$> filteredTasks (tasks w) (searchTerm w) = ["Alpha"] /\
   selectedIndex w = 0 /\
   take 1 (turnOutput hostUTC "2" w) = [Jumped 2] /\
   selectedIndex w2 = 1 /\
   selectedTitle (filteredTasks (tasks w2) (searchTerm w2)) (selectedIndex w2)
   = "Keine" /\
   take 1 (turnOutput hostUTC "d" w2) = [Deleted "Beta"]) /\
  (title <$> tasks v = ["Beta"; "Alpha"] /\
   title <$> filteredTasks (tasks v) (searchTerm v) = ["Alpha"] /\
   selectedIndex v = 0 /\
   selectedTitle (filteredTasks (tasks v) (searchTerm v)) (selectedIndex v)
   = "Alpha" /\
   take 1 (turnOutput hostUTC "d" v) = [Deleted "Beta"] /\
   take 1 (turnOutput hostUTC "t" v) = [Toggled "Beta" "erledigt"] /\
   take 1 (turnOutput hostUTC "e" (set_stdin [""; ""; ""; ""] v))
   = [EditHeading "Beta"] /\
   take 3 (turnOutput hostUTC "details" v)
   = [ScreenCleared; DetailsBanner;
      Details (mkTask 1 "Beta" "offen" "normal" "" [])]).
Proof. vm_compute. repeat split. Qed.

(** C2. Three sessions after which the selection is outside the filtered
    view.  Deleting the only task leaves the selection at -1; adding a task
    then leaves it at -1 although the view shows one task, and toggling
    fails.  Setting a search term that one task of three matches, with the
    third task selected, leaves the selection at index 2 of a view of
    length 1. *)
Theorem selection_leaves_filtered_view :
  let w := after 2 ["qa"; "x"; "d"] in
  let w' := after 3 ["qa"; "x"; "d"; "qa"; "y"] in
  let v := after 5 ["qa"; "Alpha"; "qa"; "Beta"; "qa"; "Gamma"; "end";
                    "/"; "alp"] in
  (tasks w = [] /\ selectedIndex w = -1) /\
  (len (filteredTasks (tasks w') (searchTerm w')) = 1 /\
   selectedIndex w' = -1 /\
   turnOutput hostUTC "t" w' = [CommandFailed]) /\
  (len (filteredTasks (tasks v) (searchTerm v)) = 1 /\
   selectedIndex v = 2).
Proof. vm_compute. repeat split. Qed.

(** ** Due dates *)

(** An entry that matches none of the three patterns gives no date. *)
Lemma unmatched_date_is_rejected (env : Env) (entered : string) :
  matchesIso entered = false -> matchesDMY entered = false ->
  matchesDM entered = false -> parsedDate env entered = None.
Proof. intros H1 H2 H3. unfold parsedDate. by rewrite H1, H2, H3. Qed.

Lemma digitVal_range (c : ascii) (d : Z) : digitVal c = Some d -> 0 <= d <= 9.
Proof.
  unfold digitVal. destruct (Z.leb_spec 48 (code c)), (Z.leb_spec (code c) 57);
    simpl; intros [= <-]; lia.
Qed.

Lemma readDigits_bound (s : string) (acc : option Z) :
  allDigits s = true -> 0 <= default 0 acc ->
  0 <= default 0 (readDigits 10 digitVal acc s)
  < (default 0 acc + 1) * 10 ^ Z.of_nat (String.length s).
Proof.
  revert acc. induction s as [|c s IH]; intros acc Hd Hacc.
  - simpl. lia.
  - cbn [allDigits] in Hd. apply andb_true_iff in Hd as [Hc Hs].
    unfold isDigit in Hc. cbn [readDigits String.length].
    destruct (digitVal c) as [d|] eqn:E; [| done].
    apply digitVal_range in E.
    set (a := default 0 acc) in *.
    specialize (IH (Some (a * 10 + d)) Hs).
    change (default 0 (Some (a * 10 + d))) with (a * 10 + d) in IH.
    specialize (IH ltac:(lia)).
    rewrite Nat2Z.inj_succ, Z.pow_succ_r by lia.
    set (P := 10 ^ Z.of_nat (String.length s)) in *.
    assert (0 < P) by (apply Z.pow_pos_nonneg; lia).
    assert ((a * 10 + d + 1) * P <= (a * 10 + 10) * P)
      by (apply Z.mul_le_mono_nonneg_r; lia).
    clearbody a P. lia.
Qed.

Lemma digitRun_bound (lo hi : nat) (s : string) :
  digitRun lo hi s = true -> 0 <= toNumber s < 10 ^ Z.of_nat hi.
Proof.
  unfold digitRun, toNumber. intros [Hd Hl%bool_decide_eq_true]%andb_true_iff.
  pose proof (readDigits_bound s None Hd) as H. cbn [default] in H.
  assert (10 ^ Z.of_nat (String.length s) <= 10 ^ Z.of_nat hi)
    by (apply Z.pow_le_mono_r; lia).
  lia.
Qed.

Lemma monthStart_range (leap : bool) (m : Z) :
  0 <= m <= 11 -> 0 <= monthStart leap m <= 335.
Proof.
  intros H. assert (Hm : m = 0 \/ m = 1 \/ m = 2 \/ m = 3 \/ m = 4 \/ m = 5 \/
                         m = 6 \/ m = 7 \/ m = 8 \/ m = 9 \/ m = 10 \/ m = 11)
    by lia.
  destruct leap; repeat (destruct Hm as [-> | Hm]; [simpl; lia |]);
    subst; simpl; lia.
Qed.

(** [new Date(year, month, date)] is a valid date for every four-digit year
    and every month and day of at most two digits, on a host whose local
    time is within a day of UTC. *)
Lemma newDate3_valid (env : Env) (y m d : Z) :
  (forall t, - msPerDay <= LocalTZA env t <= msPerDay) ->
  0 <= y <= 9999 -> -1 <= m <= 98 -> 0 <= d <= 99 ->
  exists t, newDate3 env y m d = Some t.
Proof.
  intros Htz Hy Hm Hd. unfold newDate3, TimeClip, UTC, MakeDate, MakeDay.
  set (yr := if (0 <=? y) && (y <=? 99) then 1900 + y else y).
  assert (Hyr : 0 <= yr <= 9999).
  { subst yr. destruct ((0 <=? y) && (y <=? 99)) eqn:E; [| lia].
    apply andb_true_iff in E as [_ E%Z.leb_le]. lia. }
  clearbody yr.
  set (ym := yr + m / 12). set (mn := m mod 12).
  assert (Hmn : 0 <= mn <= 11)
    by (subst mn; pose proof (Z.mod_pos_bound m 12); lia).
  pose proof (monthStart_range (isLeapYear ym) mn Hmn) as Hms.
  assert (Hym : -1 <= ym <= 10007) by (subst ym; Z.div_mod_to_equations; lia).
  set (ms := monthStart (isLeapYear ym) mn) in *. clearbody ms ym mn.
  set (day := DayFromYear ym + ms + d - 1).
  assert (Hday : -800000 <= day <= 3000000) 
    by (subst day; unfold DayFromYear; Z.div_mod_to_equations; lia).
  clearbody day. specialize (Htz (day * msPerDay + 0)). unfold msPerDay in *.
  destruct (Z.ltb_spec 8640000000000000
              (Z.abs (day * 86400000 + 0 - LocalTZA env (day * 86400000 + 0))));
    [lia | eauto].
Qed.

(** X12. An entry of one of the two dotted shapes always gives a date, whatever
    its day and month: the test for an invalid date never rejects it. *)
Lemma dotted_date_is_never_rejected (env : Env) (entered : string) :
  (forall t, - msPerDay <= LocalTZA env t <= msPerDay) ->
  0 <= currentYear env <= 9999 ->
  matchesIso entered = false ->
  matchesDMY entered = true \/ matchesDM entered = true ->
  exists t, parsedDate env entered = Some t.
Proof.
  intros Htz Hcy Hiso Hdot. unfold parsedDate. rewrite Hiso.
  destruct (matchesDMY entered) eqn:E1.
  - unfold matchesDMY in E1.
    destruct (split "." entered) as [|d [|m [|y [|]]]]; try done.
    apply andb_true_iff in E1 as [[Hd Hm]%andb_true_iff Hy].
    apply digitRun_bound in Hd, Hm, Hy.
    change (10 ^ Z.of_nat 2) with 100 in *.
    change (10 ^ Z.of_nat 4) with 10000 in *.
    apply newDate3_valid; [done | lia..].
  - destruct Hdot as [|E2]; [done |]. rewrite E2. unfold matchesDM in E2.
    destruct (split "." entered) as [|d [|m [|]]]; try done.
    apply andb_true_iff in E2 as [Hd Hm].
    apply digitRun_bound in Hd, Hm.
    change (10 ^ Z.of_nat 2) with 100 in *.
    apply newDate3_valid; [done | lia..].
Qed.

(** C4. The due dates [31.02.2024] and [13.13.2024], entered while adding
    a task on a host in UTC, are not rejected: no warning is written and the
    task is stored with the due date [2024-03-02], respectively
    [2025-01-13].  Editing behaves the same.  On a host one hour east of
    UTC the valid entry [1.3.2024] is stored as [2024-02-29]. *)
Theorem impossible_date_is_accepted :
  let added (env : Env) (entered : string) :=
    finalWorld (handleAddTask env
                  (initial NoDoc ["Pay rent"; ""; entered; ""])) in
  let edited (entered : string) :=
    finalWorld (handleEditTask hostUTC
                  (set_tasks [mkTask 1 "Pay rent" "offen" "normal"
                                     "2024-01-01" []]
                             (initial NoDoc [""; ""; entered; ""]))) in
  (dueDate <$> tasks (added hostUTC "31.02.2024") = ["2024-03-02"] /\
   console (added hostUTC "31.02.2024")
   = [AddHeading; Asked AskTitle; Asked AskPriority; Asked AskDueDate;
      Asked AskTags; Added "Pay rent"; DueDateLine "2024-03-02"]) /\
  dueDate <$> tasks (added hostUTC "13.13.2024") = ["2025-01-13"] /\
  dueDate <$> tasks (edited "31.02.2024") = ["2024-03-02"] /\
  dueDate <$> tasks (added hostCET "1.3.2024") = ["2024-02-29"].
Proof. vm_compute. repeat split. Qed.

(** ** Invariants of a session *)

Lemma keeps_bind {A B} (I : World -> Prop) (m : M A) (f : A -> M B) :
  keeps I m -> (forall a, keeps I (f a)) -> keeps I (m ≫= f).
Proof.
  intros Hm Hf w Hw. specialize (Hm w Hw). unfold mbind, M_bind.
  destruct (m w) as [a w' | | | |]; simpl in *; try done. by apply Hf.
Qed.

Lemma keeps_tryCatch {A} (I : World -> Prop) (body handler : M A) :
  keeps I body -> keeps I handler -> keeps I (tryCatch body handler).
Proof.
  intros Hb Hh w Hw. specialize (Hb w Hw). unfold tryCatch.
  destruct (body w); simpl in *; try done. by apply Hh.
Qed.

Ltac runFinal :=
  cbv beta iota zeta delta
      [mbind M_bind mret M_ret log logs modify question get when throw exit
       unhandled tryCatch assign finalWorld
       set_console set_tasks set_stdin set_selectedIndex set_searchTerm
       set_doc tasks selectedIndex view searchTerm doc stdin console].

(** Splits on the next line to be read and on the tests of a command. *)
Ltac branch :=
  match goal with
  | |- context [match ?x with [] => _ | _ :: _ => _ end] =>
      is_var x; destruct x
  | |- context [match ?x with NoDoc => _ | Failing => _ | Sheet _ => _ end] =>
      is_var x; destruct x
  | |- context [match parsedDate ?e ?s with _ => _ end] =>
      destruct (parsedDate e s) eqn:?
  | |- context [match at_ ?l ?i with _ => _ end] =>
      destruct (at_ l i) eqn:?
  | |- context [match completeTask ?i ?l with _ => _ end] =>
      destruct (completeTask i l) eqn:?
  | |- context [match parseInt ?s with _ => _ end] =>
      destruct (parseInt s) eqn:?
  | |- context [if ?b then _ else _] =>
      lazymatch b with
      | context [match _ with _ => _ end] => fail
      | _ => destruct b eqn:?
      end
  end.

Ltac cases := runFinal; repeat (branch; runFinal).

Lemma alter_dense (ts : list Task) (i : nat) (f : Task -> Task) :
  (forall t, id (f t) = id t) -> denseIds ts -> denseIds (alter f i ts).
Proof.
  intros Hf H j t. destruct (decide (i = j)) as [<- | Hne].
  - rewrite list_lookup_alter_eq. destruct (ts !! i) eqn:E; [| done].
    intros [= <-]. rewrite Hf. by apply H.
  - rewrite list_lookup_alter_ne by done. apply H.
Qed.

Lemma handleAddTask_dense env : keeps idsDense (handleAddTask env).
Proof.
  intros [ts sel v term dc inp con] H. unfold idsDense in *. simpl in H.
  unfold handleAddTask. cases; try done; by apply addTask_dense.
Qed.

Lemma keeps_log (I : World -> Prop) (m : Msg) :
  ignoresTerminal I -> keeps I (log m).
Proof.
  intros HI [ts sel v term dc inp con] H.
  exact (HI _ (con ++ [m]) inp H).
Qed.

Lemma keeps_renderMainView (I : World -> Prop) :
  ignoresTerminal I -> keeps I renderMainView.
Proof.
  intros HI w H. destruct (renderMainView_done w) as (out & -> & _).
  destruct w as [ts sel v term dc inp con]. exact (HI _ (con ++ out) inp H).
Qed.

Lemma keeps_showHelp (I : World -> Prop) :
  ignoresTerminal I -> keeps I showHelp.
Proof.
  intros HI. apply keeps_bind; [| intros _]; by apply keeps_log.
Qed.

Lemma keeps_renderDetailsView (I : World -> Prop) :
  ignoresTerminal I -> keeps I renderDetailsView.
Proof.
  intros HI [ts sel v term dc inp con] H. unfold renderDetailsView.
  cases;
    match goal with
    | |- I (mkWorld _ _ _ _ _ _ ?c) => exact (HI _ c inp H)
    end.
Qed.

Lemma keeps_get (I : World -> Prop) : keeps I get.
Proof. intros w H. exact H. Qed.

Lemma keeps_get_bind {A} (I : World -> Prop) (k : World -> M A) :
  (forall w, I w -> I (finalWorld (k w w))) -> keeps I (get ≫= k).
Proof. intros Hk w H. by apply Hk. Qed.

Lemma keeps_ret {A} (I : World -> Prop) (a : A) : keeps I (mret a).
Proof. intros w H. exact H. Qed.

Lemma keeps_exit {A} (I : World -> Prop) (c : Z) : keeps I (@exit A c).
Proof. intros w H. exact H. Qed.

Lemma keeps_modify (I : World -> Prop) (f : World -> World) :
  (forall w, I w -> I (f w)) -> keeps I (modify f).
Proof. intros Hf w H. by apply Hf. Qed.

Lemma keeps_question (I : World -> Prop) (p : Prompt) :
  ignoresTerminal I -> keeps I (question p).
Proof.
  intros HI [ts sel v term dc inp con] H. unfold question.
  destruct inp as [|line rest]; simpl.
  - exact (HI _ (con ++ [Asked p]) [] H).
  - exact (HI _ (con ++ [Asked p]) rest H).
Qed.

Lemma keeps_handleSearch (I : World -> Prop) :
  ignoresTerminal I -> (forall s w, I w -> I (set_searchTerm s w)) ->
  keeps I handleSearch.
Proof.
  intros HI Hs. unfold handleSearch.
  apply keeps_bind; [apply keeps_get | intros w0].
  apply keeps_bind; [by apply keeps_log | intros _].
  apply keeps_bind; [by apply keeps_log | intros _].
  apply keeps_bind; [by apply keeps_question | intros term].
  apply keeps_bind; [apply keeps_modify, Hs | intros _].
  destruct (truthy (trim term)); by apply keeps_log.
Qed.

Lemma keeps_handleCommand (env : Env) (I : World -> Prop) (next : M unit)
      (input : string) :
  keptByCommands env I -> keeps I next ->
  keeps I (handleCommand env next input).
Proof.
  intros [Hio Hadd Hquick Hdel Hedit Htog Hsave Hload Hsearch Hup Hdown
          Hhome Hend Hjump] Hnext. unfold handleCommand.
  apply keeps_bind; [| by intros _].
  apply keeps_tryCatch; [| by apply keeps_log].
  apply keeps_bind; [| intros _; by apply keeps_renderMainView].
  repeat match goal with
         | |- keeps _ (if ?b then _ else _) => destruct b
         end;
    try done;
    try (by apply keeps_modify);
    try (by apply keeps_showHelp);
    try (by apply keeps_renderDetailsView);
    try (by apply keeps_handleSearch).
  - apply keeps_bind; [by apply keeps_log | intros _]. apply keeps_exit.
  - apply keeps_bind; [done | intros _]. apply keeps_ret.
  - apply keeps_bind; [done | intros _]. by apply keeps_log.
  - apply keeps_bind; [apply keeps_modify, Hsearch | intros _].
    by apply keeps_log.
  - destruct (parseInt _) as [n|]; [| by apply keeps_log].
    apply keeps_get_bind. intros w H.
    destruct ((0 <=? n - 1) && (n - 1 <? len (tasks w))) eqn:E;
      [| by apply keeps_log].
    apply andb_true_iff in E as [E1%Z.leb_le E2%Z.ltb_lt].
    destruct w as [ts sel v term dc inp con]. simpl in *.
    apply (Hio _ (con ++ [Jumped (n - 1 + 1)]) inp), (Hjump _ (n - 1)) in H;
      [exact H | done].
Qed.

Lemma keeps_showPrompt (I : World -> Prop) (h : string -> M unit) :
  ignoresTerminal I -> (forall input, keeps I (h input)) ->
  keeps I (showPrompt h).
Proof.
  intros HI Hh [ts sel v term dc inp con] H. unfold showPrompt. run.
  destruct inp as [|line rest].
  - match goal with
    | |- I (finalWorld (Waiting (mkWorld _ _ _ _ _ _ ?c))) =>
        exact (HI _ c [] H)
    end.
  - apply Hh.
    match goal with
    | |- I (mkWorld _ _ _ _ _ _ ?c) => exact (HI _ c rest H)
    end.
Qed.

Lemma keeps_turns (env : Env) (I : World -> Prop) (n : nat) :
  keptByCommands env I -> keeps I (turns env n).
Proof.
  intros HI. induction n as [|n IH]; [apply keeps_ret |].
  simpl. apply keeps_showPrompt; [by destruct HI |].
  intros input. by apply keeps_handleCommand.
Qed.

Lemma keeps_main (env : Env) (I : World -> Prop) (connected : bool) (n : nat) :
  keptByCommands env I -> keeps I (main env connected n).
Proof.
  intros HI. pose proof (kept_terminal _ _ HI) as Hio. unfold main.
  apply keeps_bind; [by apply keeps_log | intros _].
  apply keeps_bind; [by apply keeps_log | intros _].
  apply keeps_bind.
  { destruct connected; [| by apply keeps_log].
    apply keeps_bind; [by apply keeps_log | intros _].
    apply keeps_bind; [by destruct HI | intros loaded].
    apply keeps_get_bind. intros w H.
    destruct (loaded && _); [exact (keeps_log I _ Hio w H) |].
    destruct loaded; [exact (keeps_log I _ Hio w H) | exact H]. }
  intros _. apply keeps_bind; [by apply keeps_log | intros _].
  apply keeps_bind; [by apply keeps_renderMainView | intros _].
  by apply keeps_turns.
Qed.

(** *** Ids *)

Lemma alter_const_dense (ts : list Task) (i : nat) (x : Task) :
  denseIds ts -> id x = Z.of_nat i + 1 -> denseIds (alter (fun _ => x) i ts).
Proof.
  intros H Hx j t. destruct (decide (i = j)) as [<- | Hne].
  - rewrite list_lookup_alter_eq. destruct (ts !! i); [| done].
    by intros [= <-].
  - rewrite list_lookup_alter_ne by done. apply H.
Qed.

Lemma imap_taskOfRow_dense (rows : list Row) : denseIds (imap taskOfRow rows).
Proof.
  intros i t. rewrite list_lookup_imap.
  destruct (rows !! i); simpl; [| done]. by intros [= <-].
Qed.

Lemma idsDense_kept (env : Env) : keptByCommands env idsDense.
Proof.
  split; try (by intros; assumption).
  - by intros [ts sel v term dc inp con] c i H.
  - apply handleAddTask_dense.
  - intros [ts sel v term dc inp con] H. unfold idsDense in *. simpl in H.
    unfold handleQuickAdd. cases; try done. by apply addTask_dense.
  - intros [ts sel v term dc inp con] H. unfold idsDense in *. simpl in H.
    unfold handleDeleteTask. cases; try done. apply renumber_dense.
  - intros [ts sel v term dc inp con] H. unfold idsDense in *. simpl in H.
    unfold handleEditTask. cases; try done.
    all: match goal with
         | E : at_ ?l ?i = Some ?t |- _ =>
             apply at_Some_range in E as [_ E];
             assert (Hid : id t = Z.of_nat (Z.to_nat i) + 1) by (by apply H)
         end.
    all: repeat apply alter_const_dense; try done.
    all: by repeat case_match.
  - intros [ts sel v term dc inp con] H. unfold idsDense in *. simpl in H.
    unfold handleToggleTask. cases; try done.
    all: match goal with
         | E : completeTask _ _ = Some _ |- _ =>
             unfold completeTask in E;
             match type of E with
             | context [at_ ?l ?i] => destruct (at_ l i); [| done]
             end;
             injection E as <-
         end.
    all: by apply alter_dense.
  - intros [ts sel v term dc inp con] H. unfold idsDense in *. simpl in H.
    unfold saveTasks. cases; done.
  - intros [ts sel v term dc inp con] H. unfold idsDense in *. simpl in H.
    unfold loadTasks.
    cases; first [ done | apply imap_taskOfRow_dense
                 | intros i t; by rewrite lookup_nil ].
Qed.

(** X1. In every session ids are dense: from a task list whose ids are
    the positions plus one, wherever the program stands after [n] turns,
    also in the middle of a dialogue, at exit or after a failed command,
    and whatever the remote sheet holds, the ids of the task list are the
    positions plus one. *)
Theorem session_keeps_ids_dense (env : Env) (connected : bool) (n : nat)
        (w : World) :
  denseIds (tasks w) ->
  denseIds (tasks (finalWorld (main env connected n w))).
Proof. apply (keeps_main env idsDense), idsDense_kept. Qed.

Lemma session_keeps_ids_dense_witness :
  let w := set_tasks [mkTask 1 "Alpha" "offen" "normal" "" [];
                      mkTask 2 "Beta" "erledigt" "hoch" "" ["x"]]
             (initial (Sheet [mkRow "Gamma" "" "" "" "a,b"])
                      ["d"; "qa"; "Delta"; "reload"; "e"; "Eps"]) in
  denseIds (tasks w) /\
  denseIds (tasks (finalWorld (main hostUTC true 4 w))).
Proof.
  intros w.
  assert (H : denseIds (tasks w)).
  { intros [|[|i]] t; simpl; intros [= <-]; reflexivity. }
  split; [exact H |].
  exact (session_keeps_ids_dense hostUTC true 4 w H).
Defined.

(** *** Tasks entered at the terminal *)

Lemma splitTags_nonempty (entered : string) :
  Forall (fun g => g <> "") (splitTags entered).
Proof.
  unfold splitTags. apply Forall_forall. intros g Hg.
  apply list_elem_of_In, filter_In in Hg as [_ Hg]. by destruct g.
Qed.

Lemma renumber_wellFormed (ts : list Task) :
  Forall wellFormed ts -> Forall wellFormed (renumber ts).
Proof.
  intros H. apply Forall_lookup. intros i t. unfold renumber.
  rewrite list_lookup_imap. destruct (ts !! i) as [x|] eqn:E; [| done].
  intros [= <-]. by apply (proj1 (Forall_lookup _ _) H i x E).
Qed.

Lemma splice1_Forall {A} (P : A -> Prop) (a : list A) (index : Z) :
  Forall P a -> Forall P (splice1 index a).
Proof.
  intros H. unfold splice1. apply Forall_app.
  split; [by apply Forall_take | by apply Forall_drop].
Qed.

Lemma alter_Forall {A} (P : A -> Prop) (f : A -> A) (i : nat) (a : list A) :
  (forall x, a !! i = Some x -> P (f x)) -> Forall P a ->
  Forall P (alter f i a).
Proof.
  intros Hf H. apply Forall_lookup. intros j y.
  destruct (decide (i = j)) as [<- | Hne].
  - rewrite list_lookup_alter_eq. destruct (a !! i) eqn:E; [| done].
    intros [= <-]. by apply Hf.
  - rewrite list_lookup_alter_ne by done.
    apply (proj1 (Forall_lookup _ _) H).
Qed.

Lemma validPriority_or_normal (p : string) :
  (if oneOf validPriorities p then p else "normal") ∈ validPriorities.
Proof.
  unfold oneOf. case_bool_decide; [done |]. unfold validPriorities.
  apply elem_of_cons. by left.
Qed.

Lemma offlineTasksOk_kept (env : Env) : keptByCommands env offlineTasksOk.
Proof.
  split; try (by intros; assumption).
  - by intros [ts sel v term dc inp con] c i H.
  - intros [ts sel v term dc inp con] [Hd H]. unfold offlineTasksOk in *.
    simpl in *. unfold handleAddTask.
    cases; (split; [done |]); try done.
    all: apply Forall_app; split; [done |]; apply Forall_singleton.
    all: repeat split; simpl;
      first [ apply splitTags_nonempty | apply Forall_nil_2
            | by left
            | by match goal with
                 | E : oneOf _ ?p = true |- ?p ∈ _ =>
                     apply bool_decide_eq_true in E
                 end
            | by (apply elem_of_cons; left)
            | apply truthy_true;
              match goal with |- ?b = true => by destruct b end ].
  - intros [ts sel v term dc inp con] [Hd H]. unfold offlineTasksOk in *.
    simpl in *. unfold handleQuickAdd.
    cases; (split; [done |]); try done.
    apply Forall_app; split; [done |]; apply Forall_singleton.
    repeat split; simpl; [by apply truthy_true | by left | | done].
    unfold validPriorities. apply elem_of_cons. by left.
  - intros [ts sel v term dc inp con] [Hd H]. unfold offlineTasksOk in *.
    simpl in *. unfold handleDeleteTask.
    cases; (split; [done |]); try done.
    by apply renumber_wellFormed, splice1_Forall.
  - intros [ts sel v term dc inp con] [Hd H]. unfold offlineTasksOk in *.
    simpl in *. unfold handleEditTask.
    cases; (split; [done |]); try done.
    all: match goal with
         | E : at_ ?l ?i = Some ?t |- _ =>
             apply at_Some_range in E as [Hr E];
             pose proof (proj1 (Forall_lookup _ _) H _ _ E)
               as (Hti & Hst & Hpr & Hta)
         end.
    all: repeat (apply alter_Forall; [intros ? _ |]); try done.
    all: repeat split; simpl;
      first [ done | by apply truthy_true | apply splitTags_nonempty
            | apply Forall_nil_2
            | by match goal with
                 | E : _ && oneOf _ ?p = true |- ?p ∈ _ =>
                     apply andb_true_iff in E as [_ E];
                     apply bool_decide_eq_true in E
                 end ].
  - intros [ts sel v term dc inp con] [Hd H]. unfold offlineTasksOk in *.
    simpl in *. unfold handleToggleTask.
    cases; (split; [done |]); try done.
    all: match goal with
         | E : completeTask _ _ = Some _ |- _ =>
             unfold completeTask in E;
             match type of E with
             | context [at_ ?l ?i] => destruct (at_ l i); [| done]
             end;
             injection E as <-
         end.
    all: apply alter_Forall; [| done]; intros x Hx.
    all: pose proof (proj1 (Forall_lookup _ _) H _ _ Hx)
           as (Hti & Hst & Hpr & Hta).
    all: unfold toggled; repeat split; simpl; try done.
    all: case_bool_decide; [by left | by right].
  - intros [ts sel v term dc inp con] [Hd H]. unfold offlineTasksOk in *.
    simpl in *. subst dc. unfold saveTasks. by cases.
  - intros [ts sel v term dc inp con] [Hd H]. unfold offlineTasksOk in *.
    simpl in *. subst dc. unfold loadTasks. by cases.
Qed.

(** X2. Without a remote sheet, every task of every session is as the
    dialogues make it: from a world all of whose tasks have a non-empty
    title, the status [offen] or [erledigt], one of the three priorities
    and no empty tag, the same holds wherever the program stands after [n]
    turns, whatever is typed. *)
Theorem offline_tasks_stay_well_formed (env : Env) (connected : bool)
        (n : nat) (w : World) :
  doc w = NoDoc -> Forall wellFormed (tasks w) ->
  Forall wellFormed (tasks (finalWorld (main env connected n w))).
Proof.
  intros Hd H.
  by apply (keeps_main env offlineTasksOk connected n
              (offlineTasksOk_kept env) w).
Qed.

Lemma offline_tasks_stay_well_formed_witness :
  let typed := ["add"; " Pay rent "; "URGENT"; "31.02.2024"; " a, ,b,";
                "e"; ""; "Hoch"; "keine"; ","; "t"; "qa"; "  "] in
  doc (initial NoDoc typed) = NoDoc /\
  Forall wellFormed (tasks (initial NoDoc typed)) /\
  Forall wellFormed
         (tasks (finalWorld (main hostUTC false 4 (initial NoDoc typed)))).
Proof.
  intros typed. split; [reflexivity |]. split; [apply Forall_nil_2 |].
  apply (offline_tasks_stay_well_formed hostUTC false 4 (initial NoDoc typed));
    [reflexivity | apply Forall_nil_2].
Defined.

(** *** The selection *)

Lemma addTask_length t p d g (ts : list Task) :
  len (addTask t p d g ts) = len ts + 1.
Proof. unfold addTask, len. rewrite length_app. simpl. lia. Qed.

Lemma alter_len (f : Task -> Task) (i : nat) (ts : list Task) :
  len (alter f i ts) = len ts.
Proof. unfold len. by rewrite length_alter. Qed.

Lemma offlineSelectionOk_kept (env : Env) :
  keptByCommands env offlineSelectionOk.
Proof.
  split.
  - by intros [ts sel v term dc inp con] c i H.
  - intros [ts sel v term dc inp con] [Hd H]. unfold offlineSelectionOk in *.
    simpl in *. unfold handleAddTask.
    cases; (split; [done |]); rewrite ?addTask_length; lia.
  - intros [ts sel v term dc inp con] [Hd H]. unfold offlineSelectionOk in *.
    simpl in *. unfold handleQuickAdd.
    cases; (split; [done |]); rewrite ?addTask_length; lia.
  - intros [ts sel v term dc inp con] [Hd H]. unfold offlineSelectionOk in *.
    simpl in *. unfold handleDeleteTask.
    cases; (split; [done |]); try lia.
    match goal with
    | E : _ && _ = true |- _ =>
        apply andb_true_iff in E as [E1%Z.leb_le E2%Z.ltb_lt]
    end.
    rewrite deleteTask_length by lia. lia.
  - intros [ts sel v term dc inp con] [Hd H]. unfold offlineSelectionOk in *.
    simpl in *. unfold handleEditTask.
    cases; (split; [done |]); rewrite ?alter_len; lia.
  - intros [ts sel v term dc inp con] [Hd H]. unfold offlineSelectionOk in *.
    simpl in *. unfold handleToggleTask.
    cases; (split; [done |]); try lia.
    all: match goal with
         | E : completeTask _ _ = Some _ |- _ =>
             unfold completeTask in E;
             match type of E with
             | context [at_ ?l ?i] => destruct (at_ l i); [| done]
             end;
             injection E as <-
         end.
    all: rewrite alter_len; lia.
  - intros [ts sel v term dc inp con] [Hd H]. unfold offlineSelectionOk in *.
    simpl in *. subst dc. unfold saveTasks. by cases.
  - intros [ts sel v term dc inp con] [Hd H]. unfold offlineSelectionOk in *.
    simpl in *. subst dc. unfold loadTasks. by cases.
  - by intros s [ts sel v term dc inp con] H.
  - intros [ts sel v term dc inp con] [Hd H]. split; [done |]. simpl in *. lia.
  - intros [ts sel v term dc inp con] [Hd H]. split; [done |]. simpl in *.
    unfold len in *. lia.
  - intros [ts sel v term dc inp con] [Hd H]. split; [done |]. simpl in *. lia.
  - intros [ts sel v term dc inp con] [Hd H]. split; [done |]. simpl in *. lia.
  - intros [ts sel v term dc inp con] n Hn [Hd H]. split; [done |].
    simpl in *. lia.
Qed.

(** X3. Without a remote sheet the selection stays between -1 and the
    last index of the full task list (0 for an empty list): from a world
    where it is, it is wherever the program stands after [n] turns,
    whatever is typed. *)
Theorem offline_selection_stays_in_range (env : Env) (connected : bool)
        (n : nat) (w : World) :
  doc w = NoDoc ->
  -1 <= selectedIndex w <= Z.max 0 (len (tasks w) - 1) ->
  let w' := finalWorld (main env connected n w) in
  -1 <= selectedIndex w' <= Z.max 0 (len (tasks w') - 1).
Proof.
  intros Hd H.
  by apply (keeps_main env offlineSelectionOk connected n
              (offlineSelectionOk_kept env) w).
Qed.

Lemma offline_selection_stays_in_range_witness :
  let typed := ["qa"; "Alpha"; "qa"; "Beta"; "end"; "d"; "d"; "j"; "7";
                "qa"; "Gamma"; "k"] in
  let w' := finalWorld (main hostUTC false 9 (initial NoDoc typed)) in
  doc (initial NoDoc typed) = NoDoc /\
  -1 <= selectedIndex (initial NoDoc typed)
     <= Z.max 0 (len (tasks (initial NoDoc typed)) - 1) /\
  -1 <= selectedIndex w' <= Z.max 0 (len (tasks w') - 1).
Proof.
  intros typed w'. split; [reflexivity |].
  split; [vm_compute; split; discriminate |].
  apply (offline_selection_stays_in_range hostUTC false 9
           (initial NoDoc typed)); [reflexivity |].
  vm_compute; split; discriminate.
Defined.

(** ** Witnesses for the selection and the dotted dates *)

Lemma jump_is_checked_against_all_tasks_witness :
  let w := set_searchTerm "alp"
             (set_tasks [mkTask 1 "Alpha" "offen" "normal" "" [];
                         mkTask 2 "Beta" "offen" "normal" "" []]
                        (initial NoDoc [])) in
  parseInt (toLowerCase (trim " 2abc ")) = Some 2 /\
  exists w',
    handleCommand hostUTC (mret tt) " 2abc " w = Done tt w' /\
    tasks w' = tasks w /\ searchTerm w' = searchTerm w /\
    selectedIndex w' = (if (1 <=? 2) && (2 <=? len (tasks w))
                        then 2 - 1 else selectedIndex w).
Proof.
  intros w. split; [reflexivity |].
  apply (jump_is_checked_against_all_tasks hostUTC (mret tt) " 2abc " w 2).
  reflexivity.
Defined.

Lemma delete_addresses_all_tasks_witness :
  let beta := mkTask 1 "Beta" "offen" "normal" "" [] in
  let w := set_searchTerm "alp"
             (set_tasks [beta; mkTask 2 "Alpha" "offen" "normal" "" []]
                        (initial NoDoc [])) in
  at_ (tasks w) (selectedIndex w) = Some beta /\
  exists w',
    handleDeleteTask w = Done tt w' /\
    tasks w' = deleteTask (selectedIndex w) (tasks w) /\
    console w' = console w ++ [Deleted (title beta)] /\
    searchTerm w' = searchTerm w /\
    selectedIndex w' = Z.min (selectedIndex w) (len (tasks w') - 1) /\
    selectedIndex w' <= len (tasks w') - 1 /\
    (0 <= selectedIndex w' <-> tasks w' <> []).
Proof.
  intros beta w. split; [reflexivity |].
  apply (delete_addresses_all_tasks w beta). reflexivity.
Defined.

Lemma dotted_date_is_never_rejected_witness :
  (forall t, - msPerDay <= LocalTZA hostCET t <= msPerDay) /\
  0 <= currentYear hostCET <= 9999 /\
  matchesIso "99.99.2024" = false /\
  (matchesDMY "99.99.2024" = true \/ matchesDM "99.99.2024" = true) /\
  exists t, parsedDate hostCET "99.99.2024" = Some t.
Proof.
  assert (H1 : forall t, - msPerDay <= LocalTZA hostCET t <= msPerDay).
  { intros t. vm_compute. split; discriminate. }
  assert (H2 : 0 <= currentYear hostCET <= 9999).
  { vm_compute. split; discriminate. }
  split; [exact H1 |]. split; [exact H2 |]. split; [reflexivity |].
  split; [left; reflexivity |].
  apply (dotted_date_is_never_rejected hostCET "99.99.2024" H1 H2);
    [reflexivity | left; reflexivity].
Defined.

(** ** Entries that are no date *)

(** X11. A due date that is not empty and has none of the three shapes is
    refused with a warning: while adding, the task is stored without a due
    date; while editing, the due date stays as it was. *)
Theorem shapeless_date_is_refused (env : Env) (w : World)
        (a1 a2 entered a4 : string) (rest : list string) :
  stdin w = a1 :: a2 :: entered :: a4 :: rest ->
  trim entered <> "" ->
  matchesIso (trim entered) = false ->
  matchesDMY (trim entered) = false ->
  matchesDM (trim entered) = false ->
  (trim a1 <> "" ->
   exists w' task,
     handleAddTask env w = Done tt w' /\
     tasks w' = tasks w ++ [task] /\ dueDate task = "" /\
     InvalidDateIgnored (trim entered) ∈ console w') /\
  (forall task,
     at_ (tasks w) (selectedIndex w) = Some task ->
     toLowerCase (trim entered) <> "keine" ->
     exists w' task',
       handleEditTask env w = Done tt w' /\
       at_ (tasks w') (selectedIndex w) = Some task' /\
       dueDate task' = dueDate task /\
       InvalidDateUnchanged (trim entered) ∈ console w').
Proof.
  intros Hin He H1 H2 H3.
  pose proof (unmatched_date_is_rejected env _ H1 H2 H3) as Hp.
  apply truthy_true in He.
  destruct w as [ts sel v term dc inp con]. simpl in Hin. subst inp. split.
  - intros Ht%truthy_true. unfold handleAddTask. run. rewrite Ht. simpl.
    cases; try congruence.
    all: eexists; eexists; (split; [reflexivity |]); simpl.
    all: unfold addTask; (split; [reflexivity |]); (split; [reflexivity |]).
    all: set_solver.
  - intros task Hat Hk. simpl in Hat.
    destruct (at_Some_range _ _ _ Hat) as [Hr Hl].
    unfold handleEditTask. run. rewrite (edit_guard _ _ _ Hat), Hat.
    run. rewrite He, Hp. rewrite bool_decide_false by done. run.
    rewrite !alter_const_insert, !list_insert_insert_eq.
    eexists; eexists. split; [reflexivity |]. simpl.
    split. { unfold at_. destruct (Z.ltb_spec sel 0); [lia |].
             apply list_lookup_insert_eq. apply lookup_lt_Some in Hl. done. }
    split; [by repeat case_match |].
    repeat first [ by (apply elem_of_app; right; apply list_elem_of_singleton)
                 | apply elem_of_app; left ].
Qed.

Lemma shapeless_date_is_refused_witness :
  let task := mkTask 1 "Pay rent" "offen" "hoch" "2024-03-01" [] in
  let w := set_tasks [task] (initial NoDoc ["Call"; ""; " tomorrow "; ""]) in
  stdin w = ["Call"; ""; " tomorrow "; ""] /\
  trim " tomorrow " <> "" /\
  matchesIso (trim " tomorrow ") = false /\
  matchesDMY (trim " tomorrow ") = false /\
  matchesDM (trim " tomorrow ") = false /\
  (exists w' t,
     handleAddTask hostUTC w = Done tt w' /\
     tasks w' = tasks w ++ [t] /\ dueDate t = "" /\
     InvalidDateIgnored (trim " tomorrow ") ∈ console w') /\
  (exists w' task',
     handleEditTask hostUTC w = Done tt w' /\
     at_ (tasks w') (selectedIndex w) = Some task' /\
     dueDate task' = dueDate task /\
     InvalidDateUnchanged (trim " tomorrow ") ∈ console w').
Proof.
  intros task w.
  assert (He : trim " tomorrow " <> "") by discriminate.
  pose proof (shapeless_date_is_refused hostUTC w "Call" "" " tomorrow " "" []
                eq_refl He eq_refl eq_refl eq_refl) as [Ha Hb].
  split; [reflexivity |]. split; [exact He |].
  split; [reflexivity |]. split; [reflexivity |]. split; [reflexivity |].
  split.
  - apply Ha. discriminate.
  - apply (Hb task); [reflexivity | discriminate].
Defined.

(** ** Moving the selection *)

(** Membership in a command list, computed. *)
Lemma oneOf_existsb (l : list string) (c : string) :
  oneOf l c = existsb (String.eqb c) l.
Proof.
  unfold oneOf. induction l as [|x l IH]; simpl; [done |].
  rewrite <- IH. destruct (String.eqb_spec c x) as [-> | Hne]; simpl.
  - apply bool_decide_true. by left.
  - apply bool_decide_ext. rewrite elem_of_cons.
    split; intros H; first [by right | by destruct H].
Qed.

(** X7. On a list that is not empty, each of the commands [up], [k],
    [down], [j], [home] and [end] leaves the selection inside the full
    list, also when it was -1 or one past the end before; the task list
    and the search term stay as they were and the turn goes on to the next
    prompt. *)
Theorem navigation_lands_in_range (env : Env) (next : M unit)
        (input : string) (w : World) :
  toLowerCase (trim input) ∈ ["up"; "k"; "down"; "j"; "home"; "end"] ->
  tasks w <> [] ->
  -1 <= selectedIndex w <= len (tasks w) ->
  exists w',
    handleCommand env next input w = next w' /\
    tasks w' = tasks w /\ searchTerm w' = searchTerm w /\
    0 <= selectedIndex w' <= len (tasks w') - 1.
Proof.
  intros Hc Hne Hsel. destruct w as [ts sel v term dc inp con]. simpl in *.
  assert (Hlen : 1 <= len ts).
  { destruct ts; [done |]. unfold len. simpl. lia. }
  unfold handleCommand.
  repeat (apply elem_of_cons in Hc as [-> | Hc]);
    [.. | by apply elem_of_nil in Hc];
    rewrite !oneOf_existsb; cbn [existsb String.eqb Ascii.eqb Bool.eqb orb].
  all: run.
  all: match goal with
       | |- context [renderMainView ?w1] =>
           destruct (renderMainView_done w1) as (out & -> & _)
       end.
  all: run; eexists; (split; [reflexivity |]); simpl.
  all: repeat split; lia.
Qed.

Lemma navigation_lands_in_range_witness :
  let w := set_selectedIndex (-1)
             (set_tasks [mkTask 1 "Alpha" "offen" "normal" "" []]
                        (initial NoDoc [])) in
  toLowerCase (trim " J ") ∈ ["up"; "k"; "down"; "j"; "home"; "end"] /\
  tasks w <> [] /\
  -1 <= selectedIndex w <= len (tasks w) /\
  exists w',
    handleCommand hostUTC (mret tt) " J " w = Done tt w' /\
    tasks w' = tasks w /\ searchTerm w' = searchTerm w /\
    0 <= selectedIndex w' <= len (tasks w') - 1.
Proof.
  intros w.
  assert (H1 : toLowerCase (trim " J ")
               ∈ ["up"; "k"; "down"; "j"; "home"; "end"]).
  { vm_compute. apply list_elem_of_In. simpl. tauto. }
  assert (H2 : tasks w <> []) by discriminate.
  assert (H3 : -1 <= selectedIndex w <= len (tasks w)).
  { vm_compute. split; discriminate. }
  split; [exact H1 |]. split; [exact H2 |]. split; [exact H3 |].
  exact (navigation_lands_in_range hostUTC (mret tt) " J " w H1 H2 H3).
Defined.

(** ** Saving and loading *)

Lemma orElse_empty (s : string) : orElse s "" = s.
Proof. by destruct s. Qed.

Lemma orElse_nonempty (s d : string) : s <> "" -> orElse s d = s.
Proof. by destruct s. Qed.

Lemma includes_cons_false (c : ascii) (s t : string) :
  includes (String c s) t = false -> includes s t = false.
Proof. cbn [includes]. by intros [_ H]%orb_false_iff. Qed.

Lemma split_no_comma (g : string) :
  includes g "," = false -> split "," g = [g].
Proof.
  induction g as [|c g IH]; [done |]. intros H.
  pose proof (includes_cons_false _ _ _ H) as H'. cbn [split].
  case_bool_decide as Hc.
  - subst c. by destruct g.
  - by rewrite (IH H').
Qed.

Lemma split_comma_app (g rest : string) :
  includes g "," = false ->
  split "," (g +:+ "," +:+ rest) = g :: split "," rest.
Proof.
  induction g as [|c g IH]; [done |]. intros H.
  pose proof (includes_cons_false _ _ _ H) as H'.
  change (String c g +:+ "," +:+ rest) with (String c (g +:+ "," +:+ rest)).
  cbn [split]. case_bool_decide as Hc.
  - subst c. by destruct g.
  - by rewrite (IH H').
Qed.

Lemma split_join (gs : list string) :
  gs <> [] -> Forall (fun g => includes g "," = false) gs ->
  split "," (join "," gs) = gs.
Proof.
  induction gs as [|g gs IH]; [done |]. intros _ H.
  apply Forall_cons in H as [Hg Hgs]. destruct gs as [|g' gs].
  - simpl. by apply split_no_comma.
  - change (join "," (g :: g' :: gs))
      with (g +:+ "," +:+ join "," (g' :: gs)).
    rewrite split_comma_app by done. f_equal. by apply IH.
Qed.

Lemma tags_round_trip (gs : list string) :
  Forall (fun g => trim g <> "" /\ includes g "," = false) gs ->
  List.filter (fun tag => 0 <? strlen (trim tag))
              (split "," (orElse (join "," gs) "")) = gs.
Proof.
  intros H. rewrite orElse_empty. destruct gs as [|g gs]; [done |].
  rewrite split_join;
    [| done | by eapply Forall_impl; [exact H |]; intros ? []].
  apply forallb_filter_id. apply forallb_forall. intros x Hx.
  apply list_elem_of_In in Hx.
  apply (proj1 (Forall_forall _ _) H) in Hx as [Hx _].
  by apply strlen_pos.
Qed.

Lemma taskOfRow_rowOfTask (i : nat) (t : Task) :
  storable t -> taskOfRow i (rowOfTask t) = set_id (Z.of_nat i + 1) t.
Proof.
  intros (Hti & Hst & Hpr & Hta). unfold taskOfRow, rowOfTask, set_id. simpl.
  rewrite !orElse_nonempty by done.
  by rewrite orElse_empty, (tags_round_trip _ Hta).
Qed.

(** The tasks read from rows that were written from tasks with dense ids
    that can be stored are those tasks. *)
Lemma stored_rows_read_back (ts : list Task) :
  denseIds ts -> Forall storable ts ->
  imap taskOfRow (map rowOfTask ts) = ts.
Proof.
  intros Hdense Hst. apply list_eq. intros i.
  rewrite list_lookup_imap, list_lookup_fmap.
  destruct (ts !! i) as [t|] eqn:E; [| done]. simpl. f_equal.
  rewrite taskOfRow_rowOfTask
    by exact (proj1 (Forall_lookup _ _) Hst i t E).
  specialize (Hdense i t E). destruct t. simpl in *. by subst.
Qed.

(** X19. Saving to a connected sheet and loading again gives back the task
    list: for tasks with dense ids whose title, status and priority are not
    empty and whose tags are neither blank nor contain a comma, [save]
    followed by [reload] succeeds and leaves every task as it was. *)
Theorem save_then_load_restores (w : World) (rows : list Row) :
  doc w = Sheet rows ->
  denseIds (tasks w) ->
  Forall storable (tasks w) ->
  exists w',
    (saveTasks ≫= fun _ => loadTasks) w = Done true w' /\
    tasks w' = tasks w /\
    doc w' = Sheet (map rowOfTask (tasks w)) /\
    selectedIndex w' = selectedIndex w /\ searchTerm w' = searchTerm w.
Proof.
  intros Hd Hdense Hst. destruct w as [ts sel v term dc inp con].
  simpl in *. subst dc. unfold saveTasks, loadTasks. run.
  eexists. split; [reflexivity |]. simpl. repeat split.
  by apply stored_rows_read_back.
Qed.

Lemma save_then_load_restores_witness :
  let ts := [mkTask 1 "Pay rent" "offen" "hoch" "2024-03-01" ["bills"; "home"];
             mkTask 2 "Call" "erledigt" "normal" "" []] in
  let w := set_tasks ts (initial (Sheet [mkRow "old" "" "" "" ""]) []) in
  doc w = Sheet [mkRow "old" "" "" "" ""] /\
  denseIds (tasks w) /\ Forall storable (tasks w) /\
  exists w',
    (saveTasks ≫= fun _ => loadTasks) w = Done true w' /\
    tasks w' = tasks w /\
    doc w' = Sheet (map rowOfTask (tasks w)) /\
    selectedIndex w' = selectedIndex w /\ searchTerm w' = searchTerm w.
Proof.
  intros ts w.
  assert (H1 : denseIds (tasks w)).
  { intros [|[|i]] t; simpl; intros [= <-]; reflexivity. }
  assert (H2 : Forall storable (tasks w)).
  { repeat first [ apply Forall_cons; split | apply Forall_nil_2 | split ];
      vm_compute; discriminate. }
  split; [reflexivity |]. split; [exact H1 |]. split; [exact H2 |].
  exact (save_then_load_restores w _ eq_refl H1 H2).
Defined.

(** ** Trimming *)

#[local] Arguments String.append !_ _ / : simpl nomatch.

Lemma append_assoc (a b c : string) : (a +:+ b) +:+ c = a +:+ b +:+ c.
Proof.
  induction a as [|x a IH]; [reflexivity |].
  change (String x ((a +:+ b) +:+ c) = String x (a +:+ b +:+ c)).
  by f_equal.
Qed.

Lemma append_nil_r (a : string) : a +:+ "" = a.
Proof.
  induction a as [|x a IH]; [reflexivity |].
  change (String x (a +:+ "") = String x a). by f_equal.
Qed.

Lemma rev_app_spec (s t : string) :
  String.rev_app s t = String.rev s +:+ t.
Proof.
  revert t. induction s as [|x s IH]; intros t; [done |].
  unfold String.rev. simpl. rewrite (IH (String x t)), (IH (String x "")).
  by rewrite append_assoc.
Qed.

Lemma rev_cons (x : ascii) (s : string) :
  String.rev (String x s) = String.rev s +:+ String x "".
Proof. unfold String.rev at 1. simpl. apply rev_app_spec. Qed.

Lemma rev_append (s t : string) :
  String.rev (s +:+ t) = String.rev t +:+ String.rev s.
Proof.
  induction s as [|x s IH]; simpl.
  - by rewrite append_nil_r.
  - by rewrite !rev_cons, IH, append_assoc.
Qed.

Lemma rev_involutive (s : string) : String.rev (String.rev s) = s.
Proof.
  induction s as [|x s IH]; [done |]. by rewrite rev_cons, rev_append, IH.
Qed.

Lemma trimStart_clean (s : string) : cleanStart (trimStart s).
Proof.
  induction s as [|c s IH]; simpl; [done |].
  destruct (isWhiteSpace c) eqn:E; [done | by simpl].
Qed.

Lemma trimStart_id (s : string) : cleanStart s -> trimStart s = s.
Proof. destruct s as [|c s]; simpl; [done | by intros ->]. Qed.

Lemma trimStart_suffix (s : string) : exists a, s = a +:+ trimStart s.
Proof.
  induction s as [|c s [a IH]]; simpl; [by exists "" |].
  destruct (isWhiteSpace c).
  - exists (String c a). simpl. by rewrite <- IH.
  - by exists "".
Qed.

Lemma trimEnd_prefix (s : string) : exists b, s = trimEnd s +:+ b.
Proof.
  unfold trimEnd. destruct (trimStart_suffix (String.rev s)) as [a Ha].
  exists (String.rev a).
  by rewrite <- rev_append, <- Ha, rev_involutive.
Qed.

Lemma trimEnd_cleanStart (s : string) : cleanStart s -> cleanStart (trimEnd s).
Proof.
  intros H. destruct (trimEnd_prefix s) as [b Hb].
  destruct (trimEnd s) as [|c t]; [done |].
  rewrite Hb in H. exact H.
Qed.

Lemma trim_cleanStart (s : string) : cleanStart (trim s).
Proof. apply trimEnd_cleanStart, trimStart_clean. Qed.

(** Trimming twice is trimming once. *)
Lemma trim_idempotent (s : string) : trim (trim s) = trim s.
Proof.
  unfold trim at 1. rewrite (trimStart_id _ (trim_cleanStart s)).
  unfold trimEnd. unfold trim at 1, trimEnd at 1.
  rewrite rev_involutive, (trimStart_id _ (trimStart_clean _)).
  reflexivity.
Qed.

Lemma trim_infix (s : string) : exists a b, s = a +:+ trim s +:+ b.
Proof.
  destruct (trimStart_suffix s) as [a Ha].
  destruct (trimEnd_prefix (trimStart s)) as [b Hb].
  exists a, b. unfold trim. by rewrite <- Hb.
Qed.

Lemma includes_trim (s t : string) :
  includes s t = false -> includes (trim s) t = false.
Proof.
  intros H. destruct (includes (trim s) t) eqn:E; [| done].
  apply includes_spec in E as (pre & post & E).
  destruct (trim_infix s) as (a & b & Hs).
  assert (includes s t = true); [| congruence].
  apply includes_spec. exists (a +:+ pre), (post +:+ b).
  rewrite Hs, E. by rewrite !append_assoc.
Qed.

Lemma split_parts_no_comma (s p : string) :
  p ∈ split "," s -> includes p "," = false.
Proof.
  revert p. induction s as [|c s IH]; intros p; cbn [split].
  - by intros ->%list_elem_of_singleton.
  - case_bool_decide as Hc.
    + intros [-> | Hp]%elem_of_cons; [done | by apply IH].
    + destruct (split "," s) as [|h r] eqn:E.
      * intros ->%list_elem_of_singleton. cbn.
        rewrite bool_decide_false by done. done.
      * intros [-> | Hp]%elem_of_cons.
        -- cbn [includes startsWith]. rewrite bool_decide_false by done.
           simpl. apply IH. by left.
        -- apply IH. by right.
Qed.

(** The tags read from an entry are not blank and contain no comma. *)
Lemma splitTags_storable (entered : string) :
  Forall (fun g => trim g <> "" /\ includes g "," = false)
         (splitTags entered).
Proof.
  unfold splitTags. apply Forall_forall. intros g Hg.
  apply list_elem_of_In, filter_In in Hg as [Hg Hlen].
  apply in_map_iff in Hg as (p & <- & Hp%list_elem_of_In).
  split.
  - rewrite trim_idempotent. by destruct (trim p).
  - by apply includes_trim, (split_parts_no_comma entered).
Qed.

(** X18. Every tag read from an entry of comma-separated tags is not empty,
    has no white space at either end and contains no comma. *)
Theorem entered_tags_are_clean (entered g : string) :
  g ∈ splitTags entered ->
  g <> "" /\ trim g = g /\ includes g "," = false.
Proof.
  intros Hg. pose proof (proj1 (Forall_forall _ _)
                           (splitTags_storable entered) g Hg) as [_ Hc].
  unfold splitTags in Hg.
  apply list_elem_of_In, filter_In in Hg as [Hg Hlen].
  apply in_map_iff in Hg as (p & <- & _).
  split; [by destruct (trim p) | split; [apply trim_idempotent | done]].
Qed.

Lemma entered_tags_are_clean_witness :
  "b c" ∈ splitTags " a, ,b c ,," /\
  "b c" <> "" /\ trim "b c" = "b c" /\ includes "b c" "," = false.
Proof.
  assert (H : "b c" ∈ splitTags " a, ,b c ,,").
  { vm_compute. apply list_elem_of_In. simpl. tauto. }
  split; [exact H |].
  exact (entered_tags_are_clean " a, ,b c ,," "b c" H).
Defined.

(** *** Tasks that can be stored *)

Lemma validPriority_nonempty (p : string) : p ∈ validPriorities -> p <> "".
Proof.
  unfold validPriorities. rewrite !elem_of_cons, elem_of_nil.
  intros [-> | [-> | [-> | []]]]; discriminate.
Qed.

Lemma orElse_default_nonempty (s d : string) : d <> "" -> orElse s d <> "".
Proof. by destruct s. Qed.

Lemma taskOfRow_storable (i : nat) (r : Row) : storable (taskOfRow i r).
Proof.
  unfold taskOfRow. repeat split; simpl;
    try (by apply orElse_default_nonempty).
  apply Forall_forall. intros g Hg.
  apply list_elem_of_In, filter_In in Hg as [Hg Hlen]. split.
  - by destruct (trim g).
  - by apply (split_parts_no_comma (orElse (row_tags r) "")), list_elem_of_In.
Qed.

Lemma tasksStorable_kept (env : Env) : keptByCommands env tasksStorable.
Proof.
  split; try (by intros; assumption).
  - by intros [ts sel v term dc inp con] c i H.
  - intros [ts sel v term dc inp con] H. unfold tasksStorable in *.
    simpl in *. unfold handleAddTask. cases; try done.
    all: apply Forall_app; split; [done |]; apply Forall_singleton.
    all: repeat split; simpl;
      first [ apply splitTags_storable | apply Forall_nil_2 | done
            | by apply orElse_default_nonempty
            | apply truthy_true;
              match goal with |- ?b = true => by destruct b end ].
  - intros [ts sel v term dc inp con] H. unfold tasksStorable in *.
    simpl in *. unfold handleQuickAdd. cases; try done.
    apply Forall_app; split; [done |]; apply Forall_singleton.
    repeat split; simpl; [by apply truthy_true | done..].
  - intros [ts sel v term dc inp con] H. unfold tasksStorable in *.
    simpl in *. unfold handleDeleteTask. cases; try done.
    apply Forall_lookup. intros i t. unfold deleteTask, renumber.
    rewrite list_lookup_imap.
    destruct (splice1 sel ts !! i) as [x|] eqn:E; [| done].
    intros [= <-].
    by apply (proj1 (Forall_lookup _ _) (splice1_Forall _ _ sel H) i x E).
  - intros [ts sel v term dc inp con] H. unfold tasksStorable in *.
    simpl in *. unfold handleEditTask. cases; try done.
    all: match goal with
         | E : at_ ?l ?i = Some ?t |- _ =>
             apply at_Some_range in E as [_ E];
             pose proof (proj1 (Forall_lookup _ _) H _ _ E)
               as (Hti & Hst & Hpr & Hta)
         end.
    all: repeat (apply alter_Forall; [intros ? _ |]); try done.
    all: repeat split; simpl;
      first [ done | by apply truthy_true | apply splitTags_storable
            | apply Forall_nil_2
            | match goal with
              | E : _ && oneOf _ ?p = true |- ?p <> "" =>
                  apply andb_true_iff in E as [_ E];
                  apply bool_decide_eq_true in E;
                  by apply validPriority_nonempty
              end ].
  - intros [ts sel v term dc inp con] H. unfold tasksStorable in *.
    simpl in *. unfold handleToggleTask. cases; try done.
    all: match goal with
         | E : completeTask _ _ = Some _ |- _ =>
             unfold completeTask in E;
             match type of E with
             | context [at_ ?l ?i] => destruct (at_ l i); [| done]
             end;
             injection E as <-
         end.
    all: apply alter_Forall; [| done]; intros x Hx.
    all: pose proof (proj1 (Forall_lookup _ _) H _ _ Hx)
           as (Hti & Hst & Hpr & Hta).
    all: unfold toggled; repeat split; simpl; try done.
    all: by case_bool_decide.
  - intros [ts sel v term dc inp con] H. unfold tasksStorable in *.
    simpl in *. unfold saveTasks. by cases.
  - intros [ts sel v term dc inp con] H. unfold tasksStorable in *.
    simpl in *. unfold loadTasks. cases; try done.
    apply Forall_lookup. intros i t. rewrite list_lookup_imap.
    destruct (_ !! i); [| done]. intros [= <-]. apply taskOfRow_storable.
Qed.

(** X4. In every session the tasks can be stored: from a world all of whose
    tasks have a non-empty title, status and priority and tags that are
    neither blank nor contain a comma, the same holds wherever the program
    stands after [n] turns, whatever is typed and whatever the sheet
    holds. *)
Theorem session_keeps_tasks_storable (env : Env) (connected : bool)
        (n : nat) (w : World) :
  Forall storable (tasks w) ->
  Forall storable (tasks (finalWorld (main env connected n w))).
Proof. apply (keeps_main env tasksStorable), tasksStorable_kept. Qed.

Lemma session_keeps_tasks_storable_witness :
  let w := initial (Sheet [mkRow "" "done" "" "soon" " ,x,, y"])
                   ["reload"; "add"; "A"; "?"; "1.1"; "p, q"; "e"; "";
                    "niedrig"; ""; "r,"; "t"] in
  Forall storable (tasks w) /\
  Forall storable (tasks (finalWorld (main hostCET true 4 w))).
Proof.
  intros w. split; [apply Forall_nil_2 |].
  apply (session_keeps_tasks_storable hostCET true 4 w), Forall_nil_2.
Defined.

(** ** What the other commands leave alone *)

(** X10. Only adding, deleting, editing, toggling and reloading touch the
    task list: after a turn with any other input, be it another command, a
    number, an unknown word or nothing, the task list is as it was. *)
Theorem other_input_leaves_tasks (env : Env) (input : string) (w : World) :
  toLowerCase (trim input) ∉ taskCommands ->
  tasks (finalWorld (handleCommand env (mret tt) input w)) = tasks w.
Proof.
  intros Hc. set (I := fun w' : World => tasks w' = tasks w).
  assert (HI : ignoresTerminal I) by (by intros [ts sel v term dc inp con]).
  assert (Hm : forall f, (forall w', tasks (f w') = tasks w') ->
                         keeps I (modify f)).
  { intros f Hf w' H. unfold I in *. simpl. by rewrite Hf. }
  enough (H : keeps I (handleCommand env (mret tt) input)) by by apply H.
  unfold handleCommand.
  apply keeps_bind; [| intros _; apply keeps_ret].
  apply keeps_tryCatch; [| by apply keeps_log].
  apply keeps_bind; [| intros _; by apply keeps_renderMainView].
  repeat match goal with
         | |- keeps _ (if oneOf ?l ?c then _ else _) =>
             let E := fresh "E" in
             destruct (oneOf l c) eqn:E;
             [ first
                 [ exfalso; apply Hc; unfold oneOf in E;
                   apply bool_decide_eq_true in E; unfold taskCommands;
                   repeat (apply elem_of_cons in E as [-> | E];
                           [by (apply list_elem_of_In; vm_compute; tauto) |]);
                   by apply elem_of_nil in E
                 | idtac ]
             | clear E ]
         end.
  - apply keeps_bind; [by apply keeps_log | intros _; apply keeps_exit].
  - by apply keeps_showHelp.
  - apply keeps_bind; [| intros _; apply keeps_ret].
    intros [ts sel v term dc inp con] H. unfold saveTasks. by cases.
  - apply keeps_handleSearch; [done |]. by intros s [ts sel v term dc inp con].
  - by apply keeps_renderDetailsView.
  - apply Hm. by intros [].
  - apply Hm. by intros [].
  - apply Hm. by intros [].
  - apply Hm. by intros [].
  - apply keeps_bind; [apply Hm; by intros [] | intros _; by apply keeps_log].
  - destruct (bool_decide _); [apply keeps_ret |].
    destruct (parseInt _) as [n|]; [| by apply keeps_log].
    apply keeps_get_bind. intros [ts sel v term dc inp con] H.
    by cases.
Qed.

Lemma other_input_leaves_tasks_witness :
  let w := set_tasks [mkTask 1 "Alpha" "offen" "normal" "" []]
                     (initial (Sheet []) ["alp"]) in
  (toLowerCase (trim " Search ") ∉ taskCommands) /\
  tasks (finalWorld (handleCommand hostUTC (mret tt) " Search " w)) = tasks w.
Proof.
  intros w.
  assert (H : toLowerCase (trim " Search ") ∉ taskCommands).
  { intros H%list_elem_of_In. vm_compute in H.
    repeat (destruct H as [H | H]; [discriminate |]). exact H. }
  split; [exact H |].
  exact (other_input_leaves_tasks hostUTC " Search " w H).
Defined.

(** ** Turns that reach the next prompt *)

(** X9. A turn goes on to the next prompt whatever the input, provided that
    four further lines arrive, that the input is not one of the words that
    end the program, and that it is not the edit command given with a
    negative selection on a list that is not empty. *)
Theorem turn_reaches_next_prompt (env : Env) (next : M unit)
        (input : string) (w : World) :
  (4 <= length (stdin w))%nat ->
  toLowerCase (trim input) ∉ ["quit"; "q"; "exit"] ->
  ~ (toLowerCase (trim input) ∈ ["edit"; "e"] /\
     tasks w <> [] /\ selectedIndex w < 0) ->
  exists w', handleCommand env next input w = next w'.
Proof.
  intros Hlen Hq He. destruct w as [ts sel v term dc inp con].
  simpl in *.
  destruct inp as [|l1 [|l2 [|l3 [|l4 rest]]]]; simpl in Hlen; try lia.
  clear Hlen. unfold handleCommand.
  repeat match goal with
         | |- context [if oneOf ?l ?c then _ else _] =>
             let E := fresh "E" in
             destruct (oneOf l c) eqn:E;
             [ unfold oneOf in E; apply bool_decide_eq_true in E | clear E ]
         end;
    try done.
  all: unfold showHelp, handleAddTask, handleQuickAdd, handleDeleteTask,
         handleEditTask, handleToggleTask, saveTasks, loadTasks,
         handleSearch, renderDetailsView.
  all: cases.
  all: try match goal with
           | |- context [renderMainView ?w1] =>
               destruct (renderMainView_done w1) as (out & -> & _)
           end.
  all: runFinal.
  all: try (eexists; reflexivity).
  all: exfalso; apply He; split; [done |].
  all: match goal with
       | E1 : at_ _ _ = None, E2 : _ || _ = false |- _ =>
           apply orb_false_iff in E2 as [E2%Z.eqb_neq E3%Z.leb_gt];
           unfold at_ in E1
       end.
  all: split; [intros ->; by unfold len in * |].
  all: match goal with
       | E1 : (if ?i <? 0 then _ else _) = None |- _ =>
           destruct (Z.ltb_spec i 0); [done |];
           apply lookup_ge_None in E1; unfold len in *; lia
       end.
Qed.

Lemma turn_reaches_next_prompt_witness :
  let w := set_selectedIndex (-1)
             (set_tasks [mkTask 1 "Alpha" "offen" "normal" "" []]
                        (initial NoDoc ["x"; "y"; "1.1.1"; ","])) in
  (4 <= length (stdin w))%nat /\
  (toLowerCase (trim "Toggle") ∉ ["quit"; "q"; "exit"]) /\
  ~ (toLowerCase (trim "Toggle") ∈ ["edit"; "e"] /\
     tasks w <> [] /\ selectedIndex w < 0) /\
  exists w', handleCommand hostUTC (mret tt) "Toggle" w = Done tt w'.
Proof.
  intros w.
  assert (H1 : (4 <= length (stdin w))%nat) by (vm_compute; lia).
  assert (H2 : toLowerCase (trim "Toggle") ∉ ["quit"; "q"; "exit"]).
  { intros H%list_elem_of_In. vm_compute in H.
    repeat (destruct H as [H | H]; [discriminate |]). exact H. }
  assert (H3 : ~ (toLowerCase (trim "Toggle") ∈ ["edit"; "e"] /\
                  tasks w <> [] /\ selectedIndex w < 0)).
  { intros [H _]. apply list_elem_of_In in H. vm_compute in H.
    repeat (destruct H as [H | H]; [discriminate |]). exact H. }
  split; [exact H1 |]. split; [exact H2 |]. split; [exact H3 |].
  exact (turn_reaches_next_prompt hostUTC (mret tt) "Toggle" w H1 H2 H3).
Defined.

(** ** Commands on a negative selection *)

(** X8. With a negative selection on a list that is not empty, as after
    deleting the last task and adding one, toggling and showing details
    fail with the general failure line and change nothing else, deleting
    does nothing, and editing never comes back: the program stops in a
    rejection that nothing handles, having written nothing. *)
Theorem negative_selection_breaks_commands (env : Env) (next : M unit)
        (input : string) (w : World) :
  tasks w <> [] -> selectedIndex w < 0 ->
  (toLowerCase (trim input) ∈ ["toggle"; "t"; "space"] ->
   handleCommand env next input w
   = next (set_console (console w ++ [CommandFailed]) w)) /\
  (toLowerCase (trim input) ∈ ["details"; "show"] ->
   handleCommand env next input w
   = next (set_console
             (console w ++ [ScreenCleared; DetailsBanner; CommandFailed]) w)) /\
  (toLowerCase (trim input) ∈ ["delete"; "d"] ->
   exists w' out,
     handleCommand env next input w = next w' /\
     tasks w' = tasks w /\ selectedIndex w' = selectedIndex w /\
     console w' = console w ++ out /\ Forall isViewLine out) /\
  (toLowerCase (trim input) ∈ ["edit"; "e"] ->
   handleCommand env next input w = Unhandled w).
Proof.
  intros Hne Hsel. destruct w as [ts sel v term dc inp con]. simpl in *.
  assert (Hlen : (len ts =? 0) = false).
  { destruct ts; [done |]. apply Z.eqb_neq. unfold len. simpl. lia. }
  assert (Hle : (len ts <=? sel) = false).
  { apply Z.leb_gt. unfold len. lia. }
  assert (Hat : at_ ts sel = None).
  { unfold at_. by destruct (Z.ltb_spec sel 0); [| lia]. }
  assert (Hpos : (0 <=? sel) = false) by (apply Z.leb_gt; lia).
  repeat split; intros Hc; unfold handleCommand;
    repeat (apply elem_of_cons in Hc as [-> | Hc]);
    try (by apply elem_of_nil in Hc);
    rewrite !oneOf_existsb; cbn [existsb String.eqb Ascii.eqb Bool.eqb orb];
    unfold handleToggleTask, renderDetailsView, handleDeleteTask,
      handleEditTask, completeTask;
    run; rewrite ?Hlen, ?Hle, ?Hat, ?Hpos; cbn [orb andb]; run;
    rewrite <- ?app_assoc; try reflexivity.
  all: match goal with
       | |- context [renderMainView ?w1] =>
           destruct (renderMainView_done w1) as (out & -> & Hout)
       end.
  all: run; eexists; exists out; (split; [reflexivity |]); simpl.
  all: by repeat split.
Qed.

Lemma negative_selection_breaks_commands_witness :
  let w := after 3 ["qa"; "x"; "d"; "qa"; "y"] in
  tasks w <> [] /\ selectedIndex w < 0 /\
  (toLowerCase (trim "e") ∈ ["edit"; "e"] ->
   handleCommand hostUTC (mret tt) "e" w = Unhandled w) /\
  (toLowerCase (trim "t") ∈ ["toggle"; "t"; "space"] ->
   handleCommand hostUTC (mret tt) "t" w
   = Done tt (set_console (console w ++ [CommandFailed]) w)).
Proof.
  intros w.
  assert (H1 : tasks w <> []) by (vm_compute; discriminate).
  assert (H2 : selectedIndex w < 0) by (vm_compute; reflexivity).
  split; [exact H1 |]. split; [exact H2 |]. split.
  - exact (proj2 (proj2 (proj2
             (negative_selection_breaks_commands hostUTC (mret tt) "e" w
                H1 H2)))).
  - exact (proj1 (negative_selection_breaks_commands hostUTC (mret tt) "t" w
                    H1 H2)).
Defined.

(** ** Narrowing a search *)






Lemma DayFromYear_step (y : Z) :
  DayFromYear (y + 1) - DayFromYear y = if isLeapYear y then 366 else 365.
Proof.
  unfold DayFromYear, isLeapYear.
  destruct (Z.eqb_spec (y mod 4) 0), (Z.eqb_spec (y mod 100) 0),
    (Z.eqb_spec (y mod 400) 0); simpl; Z.div_mod_to_equations; lia.
Qed.

Lemma YearFromDay_spec (y k : Z) :
  0 <= k < DayFromYear (y + 1) - DayFromYear y ->
  YearFromDay (DayFromYear y + k) = y.
Proof.
  intros Hk. unfold YearFromDay.
  set (d := DayFromYear y + k) in *.
  set (y0 := 1970 + 400 * d / 146097).
  assert (Hy0 : y - 1 <= y0 <= y + 1).
  { subst y0 d. unfold DayFromYear in *. Z.div_mod_to_equations. lia. }
  pose proof (DayFromYear_step y) as S0.
  pose proof (DayFromYear_step (y - 1)) as S1.
  pose proof (DayFromYear_step (y + 1)) as S2.
  replace (y - 1 + 1) with y in S1 by lia.
  assert (Hc : y0 = y - 1 \/ y0 = y \/ y0 = y + 1) by lia.
  clearbody y0.
  destruct (isLeapYear y), (isLeapYear (y - 1)), (isLeapYear (y + 1));
    destruct Hc as [-> | [-> | ->]];
    replace (y - 1 + 1) with y by lia;
    repeat match goal with
           | |- context [?a <? ?b] => destruct (Z.ltb_spec a b)
           | |- context [?a <=? ?b] => destruct (Z.leb_spec a b)
           end; lia.
Qed.

Lemma Day_MakeDate (day : Z) : Day (MakeDate day 0) = day.
Proof.
  unfold Day, MakeDate, msPerDay. rewrite Z.add_0_r. by apply Z.div_mul.
Qed.

Lemma month_cases (m : Z) :
  0 <= m <= 11 ->
  m = 0 \/ m = 1 \/ m = 2 \/ m = 3 \/ m = 4 \/ m = 5 \/
  m = 6 \/ m = 7 \/ m = 8 \/ m = 9 \/ m = 10 \/ m = 11.
Proof. lia. Qed.

Lemma MakeDay_readsAs (y m d : Z) :
  0 <= m <= 11 -> 1 <= d <= daysInMonth y (m + 1) ->
  readsAs (MakeDay y m d) y m d.
Proof.
  intros Hm Hd. unfold MakeDay, daysInMonth, readsAs in *.
  rewrite Z.div_small, Z.mod_small, Z.add_0_r by lia.
  replace (m + 1 - 1) with m in Hd by lia.
  pose proof (DayFromYear_step y) as Hs.
  assert (Hk : 0 <= monthStart (isLeapYear y) m + d - 1
               < DayFromYear (y + 1) - DayFromYear y
               /\ MonthFromDayInYear (isLeapYear y)
                    (monthStart (isLeapYear y) m + d - 1) = m).
  { rewrite Hs. unfold MonthFromDayInYear.
    destruct (isLeapYear y);
      destruct (month_cases m Hm)
        as [-> | [-> | [-> | [-> | [-> | [-> | [-> | [-> | [-> | [->
           | [-> | ->]]]]]]]]]]];
      simpl in *;
      repeat match goal with
             | |- context [?a <? ?b] => destruct (Z.ltb_spec a b); try lia
             end; lia. }
  destruct Hk as [Hk Hmon].
  replace (DayFromYear y + monthStart (isLeapYear y) m + d - 1)
    with (DayFromYear y + (monthStart (isLeapYear y) m + d - 1)) by lia.
  rewrite (YearFromDay_spec y _ Hk).
  replace (DayFromYear y + (monthStart (isLeapYear y) m + d - 1)
           - DayFromYear y)
    with (monthStart (isLeapYear y) m + d - 1) by lia.
  split; [done |]. split; [done | lia].
Qed.

(** The date part of a time value depends on its day only. *)
Lemma isoDatePart_of_day (t y m d : Z) :
  readsAs (Day t) y m d -> 0 <= y <= 9999 ->
  isoDatePart t
  = padDigits 4 y +:+ "-" +:+ padDigits 2 (m + 1) +:+ "-" +:+ padDigits 2 d.
Proof.
  intros (Hy & Hm & Hd) Hr.
  unfold isoDatePart, DateFromTime, MonthFromTime, DayWithinYear, YearFromTime.
  rewrite Hy, Hm, Hd.
  replace ((0 <=? y) && (y <=? 9999)) with true; [done |].
  symmetry. apply andb_true_iff. split; apply Z.leb_le; lia.
Qed.


Lemma split_nonempty (sep : ascii) (s : string) : split sep s <> [].
Proof.
  destruct s as [|c s]; cbn [split]; [done |].
  case_bool_decide; [done |]. by destruct (split sep s).
Qed.

Lemma join_cons (sep x : string) (l : list string) :
  l <> [] -> join sep (x :: l) = x +:+ sep +:+ join sep l.
Proof. by destruct l. Qed.

(** Splitting at a character and joining with it gives back the string. *)
Lemma join_split (sep : ascii) (s : string) :
  join (String sep "") (split sep s) = s.
Proof.
  induction s as [|c s IH]; cbn [split]; [done |].
  pose proof (split_nonempty sep s) as Hne.
  case_bool_decide as Hc.
  - subst c. rewrite join_cons by done. simpl. by rewrite IH.
  - destruct (split sep s) as [|h r]; [done |].
    destruct r as [|h' r]; simpl in *; by rewrite <- IH.
Qed.

Lemma includes_char_app (c : ascii) (a b : string) :
  includes (a +:+ b) (String c "")
  = includes a (String c "") || includes b (String c "").
Proof.
  induction a as [|x a IH]; [done |].
  change (String x a +:+ b) with (String x (a +:+ b)).
  cbn [includes]. rewrite IH.
  assert (Hs : forall u, startsWith (String x u) (String c "")
                         = bool_decide (x = c)).
  { intros u. cbn [startsWith]. destruct u; apply andb_true_r. }
  by rewrite !Hs, orb_assoc.
Qed.

Lemma allDigits_no_char (c : ascii) (a : string) :
  isDigit c = false -> allDigits a = true -> includes a (String c "") = false.
Proof.
  intros Hc. induction a as [|x a IH]; [done |].
  cbn [allDigits includes].
  intros [Hx Ha]%andb_true_iff. rewrite (IH Ha), orb_false_r.
  cbn [startsWith]. rewrite bool_decide_false by congruence. done.
Qed.

Lemma digitRun_allDigits (lo hi : nat) (s : string) :
  digitRun lo hi s = true -> allDigits s = true.
Proof. unfold digitRun. by intros [H _]%andb_true_iff. Qed.

(** An entry has at most one of the three shapes. *)
Lemma dotted_is_not_iso (s : string) :
  matchesDMY s = true \/ matchesDM s = true -> matchesIso s = false.
Proof.
  intros H. destruct (matchesIso s) eqn:Ei; [exfalso | done].
  assert (Hdot : includes s "." = true).
  { pose proof (join_split "." s) as Hj.
    destruct H as [H | H]; [unfold matchesDMY in H | unfold matchesDM in H];
      destruct (split "." s) as [|d [|m r]]; try done;
      rewrite <- Hj, join_cons by done;
      rewrite includes_char_app, includes_char_app; simpl;
      by rewrite orb_true_r. }
  unfold matchesIso in Ei. pose proof (join_split "-" s) as Hj.
  destruct (split "-" s) as [|y [|m [|d [|]]]]; try done.
  apply andb_true_iff in Ei as [[Hy Hm]%andb_true_iff Hd].
  apply digitRun_allDigits in Hy, Hm, Hd.
  rewrite <- Hj in Hdot.
  change (join "-" [y; m; d]) with (y +:+ "-" +:+ m +:+ "-" +:+ d) in Hdot.
  rewrite !includes_char_app in Hdot.
  rewrite (allDigits_no_char "." y eq_refl Hy),
    (allDigits_no_char "." m eq_refl Hm),
    (allDigits_no_char "." d eq_refl Hd) in Hdot.
  vm_compute in Hdot. discriminate.
Qed.

Lemma digit_chr (c : ascii) (v : Z) :
  digitVal c = Some v -> 0 <= v <= 9 /\ chr (48 + v) = c.
Proof.
  intros H. split; [by apply digitVal_range in H |].
  unfold digitVal in H.
  destruct ((48 <=? code c) && (code c <=? 57)); [| done].
  injection H as <-. unfold chr, code.
  replace (48 + (Z.of_N (N_of_ascii c) - 48)) with (Z.of_N (N_of_ascii c))
    by lia.
  by rewrite N2Z.id, ascii_N_embedding.
Qed.

Lemma isDigit_val (c : ascii) :
  isDigit c = true -> exists v, digitVal c = Some v.
Proof. unfold isDigit. destruct (digitVal c) as [v|]; [by exists v | done]. Qed.

Lemma pad2_toNumber (s : string) :
  digitRun 2 2 s = true -> padDigits 2 (toNumber s) = s.
Proof.
  unfold digitRun. intros [Hd Hl%bool_decide_eq_true]%andb_true_iff.
  destruct s as [|c1 [|c2 [|]]]; simpl in Hl; try lia.
  cbn [allDigits] in Hd.
  apply andb_true_iff in Hd as [[v1 H1]%isDigit_val Hd].
  apply andb_true_iff in Hd as [[v2 H2]%isDigit_val _].
  unfold toNumber. cbn [readDigits]. rewrite H1. cbn [readDigits default].
  rewrite H2. cbn [readDigits default from_option].
  apply digit_chr in H1 as [R1 <-], H2 as [R2 <-].
  unfold Datatypes.id. cbn [padDigits]. simpl.
  repeat f_equal; Z.div_mod_to_equations; lia.
Qed.

Lemma pad4_toNumber (s : string) :
  digitRun 4 4 s = true -> padDigits 4 (toNumber s) = s.
Proof.
  unfold digitRun. intros [Hd Hl%bool_decide_eq_true]%andb_true_iff.
  destruct s as [|c1 [|c2 [|c3 [|c4 [|]]]]]; simpl in Hl; try lia.
  cbn [allDigits] in Hd.
  apply andb_true_iff in Hd as [[v1 H1]%isDigit_val Hd].
  apply andb_true_iff in Hd as [[v2 H2]%isDigit_val Hd].
  apply andb_true_iff in Hd as [[v3 H3]%isDigit_val Hd].
  apply andb_true_iff in Hd as [[v4 H4]%isDigit_val _].
  unfold toNumber. cbn [readDigits]. rewrite H1. cbn [readDigits default].
  rewrite H2. cbn [readDigits default from_option]. rewrite H3.
  cbn [readDigits default from_option]. rewrite H4.
  cbn [readDigits default from_option].
  apply digit_chr in H1 as [R1 <-], H2 as [R2 <-], H3 as [R3 <-],
                     H4 as [R4 <-].
  unfold Datatypes.id. cbn [padDigits]. simpl.
  repeat f_equal; Z.div_mod_to_equations; lia.
Qed.

Lemma MakeDay_bounds (y m d : Z) :
  0 <= y <= 9999 -> 0 <= m <= 11 -> 1 <= d <= 31 ->
  -800000 <= MakeDay y m d <= 3000000.
Proof.
  intros Hy Hm Hd. unfold MakeDay.
  rewrite Z.div_small, Z.mod_small, Z.add_0_r by lia.
  pose proof (monthStart_range (isLeapYear y) m Hm).
  unfold DayFromYear. Z.div_mod_to_equations. lia.
Qed.

Lemma daysInMonth_le (y m : Z) : 1 <= m <= 12 -> daysInMonth y m <= 31.
Proof.
  intros Hm. unfold daysInMonth.
  destruct (month_cases (m - 1) ltac:(lia))
    as [E | [E | [E | [E | [E | [E | [E | [E | [E | [E | [E | E]]]]]]]]]]];
    replace m with (m - 1 + 1) at 1 by lia; rewrite E;
    destruct (isLeapYear y); simpl; lia.
Qed.

(** X13. A date of the shape [YYYY-MM-DD] that exists in the calendar is
    accepted and stored exactly as it was entered, on every host. *)
Theorem iso_date_is_kept (env : Env) (entered : string) :
  matchesIso entered = true ->
  let y := toNumber (substring 0 4 entered) in
  let m := toNumber (substring 5 2 entered) in
  let d := toNumber (substring 8 2 entered) in
  1 <= m <= 12 -> 1 <= d <= daysInMonth y m ->
  exists t, parsedDate env entered = Some t /\ isoDatePart t = entered.
Proof.
  intros Hi. unfold parsedDate. rewrite Hi. unfold matchesIso in Hi.
  pose proof (join_split "-" entered) as Hj.
  destruct (split "-" entered) as [|ys [|ms [|ds [|]]]]; try done.
  apply andb_true_iff in Hi as [[Hy Hm]%andb_true_iff Hd].
  change (join "-" [ys; ms; ds]) with (ys +:+ "-" +:+ ms +:+ "-" +:+ ds) in Hj.
  pose proof (pad4_toNumber _ Hy) as Py.
  pose proof (pad2_toNumber _ Hm) as Pm.
  pose proof (pad2_toNumber _ Hd) as Pd.
  pose proof (digitRun_bound _ _ _ Hy) as By.
  change (10 ^ Z.of_nat 4) with 10000 in By.
  assert (Hsub : substring 0 4 entered = ys /\ substring 5 2 entered = ms
                 /\ substring 8 2 entered = ds).
  { clear Py Pm Pd By. unfold digitRun in *.
    apply andb_true_iff in Hy as [_ Ly%bool_decide_eq_true].
    apply andb_true_iff in Hm as [_ Lm%bool_decide_eq_true].
    apply andb_true_iff in Hd as [_ Ld%bool_decide_eq_true].
    destruct ys as [|? [|? [|? [|? [|]]]]]; simpl in Ly; try lia.
    destruct ms as [|? [|? [|]]]; simpl in Lm; try lia.
    destruct ds as [|? [|? [|]]]; simpl in Ld; try lia.
    by subst entered. }
  destruct Hsub as (S1 & S2 & S3). rewrite S1, S2, S3. intros Hmr Hdr.
  unfold newDateIso. rewrite S1, S2, S3.
  set (y := toNumber ys) in *. set (m := toNumber ms) in *.
  set (d := toNumber ds) in *.
  pose proof (daysInMonth_le y m Hmr) as Hle.
  replace ((1 <=? m) && (m <=? 12) && (1 <=? d) && (d <=? 31)) with true
    by (symmetry; rewrite !andb_true_iff, !Z.leb_le; lia).
  pose proof (MakeDay_bounds y (m - 1) d ltac:(lia) ltac:(lia) ltac:(lia))
    as Hb.
  unfold TimeClip.
  replace (8640000000000000 <? Z.abs (MakeDate (MakeDay y (m - 1) d) 0))
    with false
    by (symmetry; apply Z.ltb_ge; unfold MakeDate, msPerDay; lia).
  eexists. split; [reflexivity |].
  rewrite (isoDatePart_of_day _ y (m - 1) d); [| | lia].
  - replace (m - 1 + 1) with m by lia. by rewrite Py, Pm, Pd.
  - rewrite Day_MakeDate. apply MakeDay_readsAs; [lia |].
    by replace (m - 1 + 1) with m by lia.
Qed.

Lemma iso_date_is_kept_witness :
  matchesIso "2024-02-29" = true /\
  1 <= toNumber (substring 5 2 "2024-02-29") <= 12 /\
  1 <= toNumber (substring 8 2 "2024-02-29")
    <= daysInMonth (toNumber (substring 0 4 "2024-02-29"))
                   (toNumber (substring 5 2 "2024-02-29")) /\
  exists t, parsedDate hostCET "2024-02-29" = Some t /\
            isoDatePart t = "2024-02-29".
Proof.
  assert (H1 : 1 <= toNumber (substring 5 2 "2024-02-29") <= 12).
  { vm_compute. split; discriminate. }
  assert (H2 : 1 <= toNumber (substring 8 2 "2024-02-29")
               <= daysInMonth (toNumber (substring 0 4 "2024-02-29"))
                              (toNumber (substring 5 2 "2024-02-29"))).
  { vm_compute. split; discriminate. }
  split; [reflexivity |]. split; [exact H1 |]. split; [exact H2 |].
  exact (iso_date_is_kept hostCET "2024-02-29" eq_refl H1 H2).
Defined.

Lemma parsedDate_dotted (env : Env) (entered : string) (y m d : Z) :
  matchesDMY entered = true \/ matchesDM entered = true ->
  dottedParts env entered = Some (y, m, d) ->
  parsedDate env entered = newDate3 env y (m - 1) d.
Proof.
  intros Hs Hp. unfold parsedDate. rewrite (dotted_is_not_iso _ Hs).
  unfold dottedParts, matchesDMY, matchesDM in *.
  destruct (split "." entered) as [|ds [|ms [|ys [|]]]]; try done.
  - destruct Hs as [Hs | Hs]; [done |]. rewrite Hs. by injection Hp as <- <- <-.
  - destruct Hs as [Hs | Hs]; [| done]. rewrite Hs. by injection Hp as <- <- <-.
Qed.

Lemma newDate3_day (env : Env) (y m d shift : Z) :
  100 <= y <= 9999 -> 1 <= m <= 12 -> 1 <= d <= daysInMonth y m ->
  (forall t, shift * msPerDay <= - LocalTZA env t
             < shift * msPerDay + msPerDay) ->
  -1 <= shift <= 0 ->
  exists t, newDate3 env y (m - 1) d = Some t /\
            Day t = MakeDay y (m - 1) d + shift.
Proof.
  intros Hy Hm Hd Htz Hs. unfold newDate3.
  replace ((0 <=? y) && (y <=? 99)) with false
    by (symmetry; apply andb_false_iff; right; apply Z.leb_gt; lia).
  pose proof (daysInMonth_le y m Hm) as Hle.
  pose proof (MakeDay_bounds y (m - 1) d ltac:(lia) ltac:(lia) ltac:(lia))
    as Hb.
  set (day := MakeDay y (m - 1) d) in *. clearbody day.
  unfold TimeClip, UTC, MakeDate. specialize (Htz (day * msPerDay + 0)).
  unfold msPerDay in *.
  set (tz := LocalTZA env (day * 86400000 + 0)) in *. clearbody tz.
  replace (8640000000000000 <? Z.abs (day * 86400000 + 0 - tz)) with false
    by (symmetry; apply Z.ltb_ge, Z.abs_le; lia).
  eexists. split; [reflexivity |]. unfold Day, msPerDay.
  Z.div_mod_to_equations. lia.
Qed.

Lemma isoDatePart_same_day (t t' : Z) :
  Day t = Day t' -> isoDatePart t = isoDatePart t'.
Proof.
  intros H. unfold isoDatePart, DateFromTime, MonthFromTime, DayWithinYear,
    YearFromTime. by rewrite H.
Qed.

(** X14. On a host at or west of UTC (by less than a day), a dotted date
    that exists in the calendar, with a year from 100 on, is accepted and
    stored as its canonical form. *)
Theorem dotted_date_is_canonical_west (env : Env) (entered : string)
        (y m d : Z) :
  matchesDMY entered = true \/ matchesDM entered = true ->
  dottedParts env entered = Some (y, m, d) ->
  100 <= y <= 9999 -> 1 <= m <= 12 -> 1 <= d <= daysInMonth y m ->
  (forall t, - msPerDay < LocalTZA env t <= 0) ->
  exists t, parsedDate env entered = Some t /\
            isoDatePart t = canonical y m d.
Proof.
  intros Hs Hp Hy Hm Hd Htz. rewrite (parsedDate_dotted env _ y m d Hs Hp).
  destruct (newDate3_day env y m d 0 Hy Hm Hd) as (t & Ht & Hday);
    [intros t; specialize (Htz t); lia | lia |].
  exists t. split; [done |]. unfold canonical.
  rewrite (isoDatePart_of_day t y (m - 1) d); [| | lia].
  - by replace (m - 1 + 1) with m by lia.
  - rewrite Hday, Z.add_0_r. apply MakeDay_readsAs; [lia |].
    by replace (m - 1 + 1) with m by lia.
Qed.

(** X15. On a host east of UTC (by at most a day), a dotted date that exists
    in the calendar, with a year from 100 on, is accepted and stored as the
    date of the day before. *)
Theorem dotted_date_is_a_day_early_east (env : Env) (entered : string)
        (y m d : Z) :
  matchesDMY entered = true \/ matchesDM entered = true ->
  dottedParts env entered = Some (y, m, d) ->
  100 <= y <= 9999 -> 1 <= m <= 12 -> 1 <= d <= daysInMonth y m ->
  (forall t, 0 < LocalTZA env t <= msPerDay) ->
  exists t, parsedDate env entered = Some t /\
            Day t = MakeDay y (m - 1) d - 1 /\
            isoDatePart t
            = isoDatePart (MakeDate (MakeDay y (m - 1) d - 1) 0) /\
            (2 <= d -> isoDatePart t = canonical y m (d - 1)).
Proof.
  intros Hs Hp Hy Hm Hd Htz. rewrite (parsedDate_dotted env _ y m d Hs Hp).
  destruct (newDate3_day env y m d (-1) Hy Hm Hd) as (t & Ht & Hday);
    [intros t; specialize (Htz t); lia | lia |].
  exists t. split; [done |]. split; [lia |]. split.
  - apply isoDatePart_same_day. rewrite Day_MakeDate. lia.
  - intros Hd2. unfold canonical.
    rewrite (isoDatePart_of_day t y (m - 1) (d - 1)); [| | lia].
    + by replace (m - 1 + 1) with m by lia.
    + replace (Day t) with (MakeDay y (m - 1) (d - 1))
        by (rewrite Hday; unfold MakeDay; lia).
      apply MakeDay_readsAs; [lia |].
      replace (m - 1 + 1) with m by lia. lia.
Qed.

Lemma dotted_date_is_canonical_west_witness :
  (matchesDMY "1.3.2024" = true \/ matchesDM "1.3.2024" = true) /\
  dottedParts hostUTC "1.3.2024" = Some (2024, 3, 1) /\
  100 <= 2024 <= 9999 /\ 1 <= 3 <= 12 /\ 1 <= 1 <= daysInMonth 2024 3 /\
  (forall t, - msPerDay < LocalTZA hostUTC t <= 0) /\
  exists t, parsedDate hostUTC "1.3.2024" = Some t /\
            isoDatePart t = canonical 2024 3 1.
Proof.
  assert (H1 : 100 <= 2024 <= 9999) by lia.
  assert (H2 : 1 <= 3 <= 12) by lia.
  assert (H3 : 1 <= 1 <= daysInMonth 2024 3).
  { vm_compute. split; discriminate. }
  assert (H4 : forall t, - msPerDay < LocalTZA hostUTC t <= 0).
  { intros t. vm_compute. split; [reflexivity | discriminate]. }
  split; [left; reflexivity |]. split; [reflexivity |].
  split; [exact H1 |]. split; [exact H2 |]. split; [exact H3 |].
  split; [exact H4 |].
  exact (dotted_date_is_canonical_west hostUTC "1.3.2024" 2024 3 1
           (or_introl eq_refl) eq_refl H1 H2 H3 H4).
Defined.

Lemma dotted_date_is_a_day_early_east_witness :
  (matchesDMY "2.3" = true \/ matchesDM "2.3" = true) /\
  dottedParts hostCET "2.3" = Some (2024, 3, 2) /\
  100 <= 2024 <= 9999 /\ 1 <= 3 <= 12 /\ 1 <= 2 <= daysInMonth 2024 3 /\
  (forall t, 0 < LocalTZA hostCET t <= msPerDay) /\
  exists t, parsedDate hostCET "2.3" = Some t /\
            Day t = MakeDay 2024 (3 - 1) 2 - 1 /\
            isoDatePart t
            = isoDatePart (MakeDate (MakeDay 2024 (3 - 1) 2 - 1) 0) /\
            (2 <= 2 -> isoDatePart t = canonical 2024 3 (2 - 1)).
Proof.
  assert (H1 : 100 <= 2024 <= 9999) by lia.
  assert (H2 : 1 <= 3 <= 12) by lia.
  assert (H3 : 1 <= 2 <= daysInMonth 2024 3).
  { vm_compute. split; discriminate. }
  assert (H4 : forall t, 0 < LocalTZA hostCET t <= msPerDay).
  { intros t. vm_compute. split; [reflexivity | discriminate]. }
  split; [right; reflexivity |]. split; [reflexivity |].
  split; [exact H1 |]. split; [exact H2 |]. split; [exact H3 |].
  split; [exact H4 |].
  exact (dotted_date_is_a_day_early_east hostCET "2.3" 2024 3 2
           (or_intror eq_refl) eq_refl H1 H2 H3 H4).
Defined.


(** ** Priorities *)

Lemma toLowerCase_empty (s : string) : toLowerCase s = "" <-> s = "".
Proof. by destruct s. Qed.

(** No line of a list built from single lines is the warning about a
    priority. *)
Ltac noPriorityWarning H :=
  repeat first
    [ apply elem_of_app in H as [H | H]
    | apply elem_of_cons in H as [H | H]; [discriminate |]
    | by apply elem_of_nil in H ].

(** X16. While adding, an empty priority gives [normal] without a warning,
    one of the three priorities in any letter case is stored in lower case
    without a warning, and anything else gives [normal] with a warning. *)
Theorem add_priority_falls_back (env : Env) (w : World)
        (entered p d g : string) (rest : list string) :
  stdin w = entered :: p :: d :: g :: rest ->
  trim entered <> "" ->
  exists w' task out,
    handleAddTask env w = Done tt w' /\
    tasks w' = tasks w ++ [task] /\
    console w' = console w ++ AddHeading :: Asked AskTitle
                   :: Asked AskPriority :: out /\
    (trim p = "" -> priority task = "normal" /\ InvalidPriority p ∉ out) /\
    (toLowerCase (trim p) ∈ validPriorities ->
     priority task = toLowerCase (trim p) /\ InvalidPriority p ∉ out) /\
    (trim p <> "" -> toLowerCase (trim p) ∉ validPriorities ->
     priority task = "normal" /\ InvalidPriority p ∈ out).
Proof.
  intros Hin Ht%truthy_true. destruct w as [ts sel v term dc inp con].
  simpl in Hin. subst inp. unfold handleAddTask. run. rewrite Ht. simpl.
  set (tp := orElse (toLowerCase (trim p)) "normal").
  assert (Htp : trim p <> "" -> tp = toLowerCase (trim p)).
  { intros H. apply orElse_nonempty. by rewrite toLowerCase_empty. }
  assert (Htp0 : trim p = "" -> tp = "normal").
  { intros H. subst tp. by rewrite H. }
  assert (Fa : trim p = "" -> tp ∈ validPriorities).
  { intros H. rewrite (Htp0 H). apply elem_of_cons. by left. }
  assert (Fb : toLowerCase (trim p) ∈ validPriorities ->
               tp = toLowerCase (trim p)).
  { intros H. apply Htp. intros E. rewrite E in H.
    by apply validPriority_nonempty in H. }
  clearbody tp.
  unfold oneOf. destruct (bool_decide (tp ∈ validPriorities)) eqn:Ev;
    [apply bool_decide_eq_true in Ev | apply bool_decide_eq_false in Ev].
  all: cbn [negb]; cases.
  all: eexists; eexists; eexists; (split; [reflexivity |]); simpl.
  all: unfold addTask; (split; [reflexivity |]).
  all: rewrite <- ?app_assoc; simpl; (split; [reflexivity |]); simpl.
  all: split; [| split].
  all: try (intros Ha;
            by (exfalso; apply Ev; first [by apply Fa | by rewrite Fb])).
  all: try (intros Hp Hv; by (exfalso; apply Hv; rewrite <- Htp)).
  all: try (intros Ha; split; [by first [apply Htp0 | apply Fb] |];
            intros Hx; by noPriorityWarning Hx).
  all: intros Hp Hv; split; [done | apply elem_of_cons; by left].
Qed.

Lemma add_priority_falls_back_witness :
  let w := initial NoDoc ["Pay rent"; " URGENT "; ""; ""] in
  stdin w = ["Pay rent"; " URGENT "; ""; ""] /\
  trim "Pay rent" <> "" /\
  exists w' task out,
    handleAddTask hostUTC w = Done tt w' /\
    tasks w' = tasks w ++ [task] /\
    console w' = console w ++ AddHeading :: Asked AskTitle
                   :: Asked AskPriority :: out /\
    (trim " URGENT " = "" ->
     priority task = "normal" /\ InvalidPriority " URGENT " ∉ out) /\
    (toLowerCase (trim " URGENT ") ∈ validPriorities ->
     priority task = toLowerCase (trim " URGENT ")
     /\ InvalidPriority " URGENT " ∉ out) /\
    (trim " URGENT " <> "" ->
     toLowerCase (trim " URGENT ") ∉ validPriorities ->
     priority task = "normal" /\ InvalidPriority " URGENT " ∈ out).
Proof.
  intros w. split; [reflexivity |]. split; [discriminate |].
  apply (add_priority_falls_back hostUTC w "Pay rent" " URGENT " "" "" []);
    [reflexivity | discriminate].
Defined.

(** X17. While editing, a priority that is none of the three leaves the
    priority as it was and, unlike while adding, no warning is written;
    one of the three in any letter case is stored in lower case. *)
Theorem edit_priority_is_silent (env : Env) (w : World) (task : Task)
        (a1 p a3 a4 : string) (rest : list string) :
  at_ (tasks w) (selectedIndex w) = Some task ->
  stdin w = a1 :: p :: a3 :: a4 :: rest ->
  exists w' task' out,
    handleEditTask env w = Done tt w' /\
    at_ (tasks w') (selectedIndex w) = Some task' /\
    console w' = console w ++ out /\
    (forall s, InvalidPriority s ∉ out) /\
    (toLowerCase (trim p) ∈ validPriorities ->
     priority task' = toLowerCase (trim p)) /\
    (toLowerCase (trim p) ∉ validPriorities ->
     priority task' = priority task).
Proof.
  intros Hat Hin. destruct w as [ts sel v term dc inp con].
  simpl in Hat, Hin. subst inp.
  destruct (at_Some_range _ _ _ Hat) as [Hr Hl].
  assert (Hlook : forall x : Task, at_ (<[Z.to_nat sel := x]> ts) sel = Some x).
  { intros x. unfold at_. destruct (Z.ltb_spec sel 0); [lia |].
    apply list_lookup_insert_eq. by apply lookup_lt_Some in Hl. }
  unfold handleEditTask. run. rewrite (edit_guard _ _ _ Hat), Hat.
  rewrite !alter_const_insert, !list_insert_insert_eq.
  set (valid := oneOf validPriorities (toLowerCase (trim p))).
  assert (Hv : valid = true <-> toLowerCase (trim p) ∈ validPriorities).
  { subst valid. unfold oneOf. apply bool_decide_eq_true. }
  assert (Hne : toLowerCase (trim p) ∈ validPriorities ->
                truthy (trim p) = true).
  { intros H%validPriority_nonempty. apply truthy_true.
    by rewrite <- toLowerCase_empty. }
  clearbody valid.
  cases; rewrite ?alter_const_insert, ?list_insert_insert_eq.
  all: eexists; eexists; eexists; (split; [reflexivity |]); simpl.
  all: (split; [apply Hlook |]).
  all: rewrite <- ?app_assoc; (split; [reflexivity |]).
  all: split; [intros s Hx; by noPriorityWarning Hx |].
  all: split; intros Hp; simpl.
  all: try done.
  all: match goal with
       | E : truthy _ && _ = true |- _ =>
           apply andb_true_iff in E as [E1 E2]
       | E : truthy _ && _ = false |- _ =>
           apply andb_false_iff in E as [E1 | E2]
       end.
  all: try (by (exfalso; apply Hp, Hv)).
  all: try (by (apply Hne in Hp; congruence)).
  all: by (apply Hv in Hp; congruence).
Qed.

Lemma edit_priority_is_silent_witness :
  let task := mkTask 1 "Pay rent" "offen" "hoch" "" [] in
  let w := set_tasks [task] (initial NoDoc [""; "urgent"; ""; ""]) in
  at_ (tasks w) (selectedIndex w) = Some task /\
  stdin w = [""; "urgent"; ""; ""] /\
  exists w' task' out,
    handleEditTask hostUTC w = Done tt w' /\
    at_ (tasks w') (selectedIndex w) = Some task' /\
    console w' = console w ++ out /\
    (forall s, InvalidPriority s ∉ out) /\
    (toLowerCase (trim "urgent") ∈ validPriorities ->
     priority task' = toLowerCase (trim "urgent")) /\
    (toLowerCase (trim "urgent") ∉ validPriorities ->
     priority task' = priority task).
Proof.
  intros task w. split; [reflexivity |]. split; [reflexivity |].
  apply (edit_priority_is_silent hostUTC w task "" "urgent" "" "" []);
    reflexivity.
Defined.

(** ** What a reload gives *)

(** X20. Whatever the rows of the sheet hold, the tasks read from them are
    as many as the rows, have dense ids, a title, a status and a priority
    that are not empty (the defaults fill empty cells) and tags that are
    neither blank nor contain a comma; written back and read again they are
    the same tasks. *)
Theorem loaded_tasks_are_stable (rows : list Row) :
  let ts := imap taskOfRow rows in
  length ts = length rows /\ denseIds ts /\ Forall storable ts /\
  imap taskOfRow (map rowOfTask ts) = ts.
Proof.
  intros ts.
  assert (Hs : Forall storable ts).
  { apply Forall_lookup. intros i t. subst ts. rewrite list_lookup_imap.
    destruct (rows !! i); [| done]. intros [= <-]. apply taskOfRow_storable. }
  split; [apply length_imap |].
  split; [apply imap_taskOfRow_dense |]. split; [done |].
  apply stored_rows_read_back; [apply imap_taskOfRow_dense | done].
Qed.
